(** * livedoppler3.py: live Doppler waterfall of the MIT small radar

    A shallow embedding of [livedoppler] (src/livedoppler3.py) and the
    properties of its processing pipeline: byte framing, sample decoding,
    the windowed spectral transform, the speed axis and the rolling
    waterfall buffer.

    Numbers.  Python floats are idealised, rounding is not modelled:
    - the call parameters and everything computed from them at startup
      (window size, speed axis, buffer shape) use rationals [Q], so that
      [int(...)], the comparisons and the crop evaluate;
    - the signal path (samples, Hann window, Fourier transform, magnitude,
      logarithm) uses the real numbers [R]; array entries that numpy can
      set to [-inf] or [nan] are values of [xreal].
    The serial port is a source of reads, each returning one byte or
    nothing (the port is opened with [timeout=0]); the plot is a sink and
    is not modelled. *)

From Stdlib Require Import ZArith QArith Qround List Bool Lia Lra Reals.
From Stdlib Require Import Strings.Byte.
Import ListNotations.

(** ** Exceptions and results *)

Inductive exn : Type :=
| ZeroDivisionError
| ValueError
| IndexError.

Inductive result (A : Type) : Type :=
| Ok (a : A)
| Raise (e : exn).
Arguments Ok {A} a.
Arguments Raise {A} e.

Definition bind {A B : Type} (r : result A) (k : A -> result B) : result B :=
  match r with
  | Ok a => k a
  | Raise e => Raise e
  end.

Notation "x <- r ;; k" := (bind r (fun x => k))
  (at level 61, r at next level, right associativity).

(** ** Python and numpy primitives on integers and rationals *)

(** [int(x)] of a float: truncation towards zero. *)
Definition py_int (x : Q) : Z := Z.quot (Qnum x) (Z.pos (Qden x)).

(** [x / y]: true division, raising on a zero divisor. *)
Definition py_div (x y : Q) : result Q :=
  if Qeq_bool y 0 then Raise ZeroDivisionError else Ok (x / y)%Q.

(** [l[0:m]]: a negative [m] counts from the end. *)
Definition py_slice_to {A : Type} (m : Z) (l : list A) : list A :=
  if (m <? 0)%Z then firstn (length l - Z.to_nat (- m)) l
  else firstn (Z.to_nat m) l.

(** [l[0::2]] and [l[1::2]]. *)
Fixpoint py_evens {A : Type} (l : list A) : list A :=
  match l with
  | [] => []
  | x :: t => x :: match t with [] => [] | _ :: t' => py_evens t' end
  end.

Definition py_odds {A : Type} (l : list A) : list A :=
  match l with
  | [] => []
  | _ :: t => py_evens t
  end.

(** [np.arange(start, stop)] with integer bounds. *)
Definition np_arange (start stop : Z) : list Z :=
  map (fun i => (start + Z.of_nat i)%Z) (seq 0 (Z.to_nat (stop - start))).

(** [np.arange(start, stop, 2)]. *)
Definition np_arange2 (start stop : Z) : list Z :=
  map (fun i => (start + 2 * Z.of_nat i)%Z)
      (seq 0 (Z.to_nat ((stop - start + 1) / 2))).

(** numpy broadcasting of a binary operation over two 1-D arrays: equal
    lengths go element by element, a length-1 array is stretched, anything
    else raises. *)
Definition np_broadcast {A B C : Type} (f : A -> B -> C)
    (xs : list A) (ys : list B) : result (list C) :=
  if Nat.eqb (length xs) (length ys) then
    Ok (map (fun p => f (fst p) (snd p)) (combine xs ys))
  else
    match xs, ys with
    | [x], _ => Ok (map (f x) ys)
    | _, [y] => Ok (map (fun a => f a y) xs)
    | _, _ => Raise ValueError
    end.

(** [a[mask]] for a boolean array [mask]: the entries of [a] where the
    mask holds; the lengths must agree. *)
Fixpoint compress {A : Type} (mask : list bool) (a : list A) : list A :=
  match mask, a with
  | b :: mask', x :: a' => if b then x :: compress mask' a' else compress mask' a'
  | _, _ => []
  end.

Definition np_mask {A : Type} (mask : list bool) (a : list A) : result (list A) :=
  if Nat.eqb (length mask) (length a) then Ok (compress mask a)
  else Raise IndexError.

(** [np.fft.fftfreq(n, d)]: the integers [0 .. (n-1)//2, -(n//2) .. -1]
    scaled by [val = 1.0/(n*d)]. *)
Definition np_fft_fftfreq (n : Z) (d : Q) : result (list Q) :=
  val <- py_div 1 (inject_Z n * d) ;;
  if (n <? 0)%Z then Raise ValueError
  else
    let N := ((n - 1) / 2 + 1)%Z in
    let results := np_arange 0 N ++ np_arange (- (n / 2)) 0 in
    Ok (map (fun i => (inject_Z i * val)%Q) results).

(** ** Real-valued numpy primitives *)

(** An array entry of the signal path: a finite value, [-inf] or [nan]. *)
Inductive xreal : Type :=
| Fin (r : R)
| NegInf
| NaN.

Definition Rsum (l : list R) : R := fold_right Rplus 0%R l.

(** [np.hanning(M)]: empty for [M < 1], [ones(1)] for [M = 1], otherwise
    [0.5 + 0.5*cos(pi*n/(M-1))] for [n] in [arange(1-M, M, 2)]. *)
Definition np_hanning (M : Z) : list R :=
  if (M <? 1)%Z then []
  else if (M =? 1)%Z then [1%R]
  else map (fun n => (0.5 + 0.5 * cos (PI * IZR n / IZR (M - 1)))%R)
           (np_arange2 (1 - M) M).

(** Complex numbers as pairs (real part, imaginary part). *)
Definition complex : Type := (R * R)%type.

(** Bin [k] of the discrete Fourier transform of a real sequence:
    the sum over [j] of [x[j] * exp(-2 pi i j k / n)]. *)
Definition dft_bin (x : list R) (k : nat) : complex :=
  let n := length x in
  let angle := fun j : nat => (2 * PI * INR j * INR k / INR n)%R in
  (Rsum (map (fun p => (snd p * cos (angle (fst p)))%R) (combine (seq 0 n) x)),
   Rsum (map (fun p => (- (snd p * sin (angle (fst p))))%R) (combine (seq 0 n) x))).

(** [np.fft.fft(x)]: raises on an empty array. *)
Definition np_fft_fft (x : list R) : result (list complex) :=
  match x with
  | [] => Raise ValueError
  | _ => Ok (map (dft_bin x) (seq 0 (length x)))
  end.

(** [np.abs] of a complex number. *)
Definition np_abs (z : complex) : R :=
  sqrt (fst z * fst z + snd z * snd z).

(** [np.log10]: [-inf] at zero, [nan] below it. *)
Definition np_log10 (x : R) : xreal :=
  if Req_dec_T x 0 then NegInf
  else if Rlt_dec x 0 then NaN
  else Fin (ln x / ln 10)%R.

(** [20 * v] for an array entry [v]. *)
Definition times20 (v : xreal) : xreal :=
  match v with
  | Fin r => Fin (20 * r)%R
  | NegInf => NegInf
  | NaN => NaN
  end.

(** [np.zeros((rows, cols))]: raises on a negative dimension. *)
Definition np_zeros (rows cols : Z) : result (list (list xreal)) :=
  if ((rows <? 0) || (cols <? 0))%Z then Raise ValueError
  else Ok (repeat (repeat (Fin 0%R) (Z.to_nat cols)) (Z.to_nat rows)).

(** [a[:, mask]] on a 2-D array held as a list of rows, [cols] wide. *)
Definition np_mask_cols {A : Type} (mask : list bool) (cols : nat)
    (a : list (list A)) : result (list (list A)) :=
  if Nat.eqb (length mask) cols then Ok (map (compress mask) a)
  else Raise IndexError.

(** [np.roll(a, 1, axis=0)]: every row moves down by one and the last row
    comes around to the front; the result is a new array. *)
Definition np_roll1 {A : Type} (a : list A) : list A :=
  match a with
  | [] => []
  | x :: t => last a x :: removelast a
  end.

(** [a[0,:] = v]: raises when there is no row 0; [v] is broadcast to the
    row's width. *)
Definition assign_row0 {A : Type} (a : list (list A)) (v : list A)
    : result (list (list A)) :=
  match a with
  | [] => Raise IndexError
  | r0 :: rest =>
      if Nat.eqb (length v) (length r0) then Ok (v :: rest)
      else match v with
           | [x] => Ok (repeat x (length r0) :: rest)
           | _ => Raise ValueError
           end
  end.

(** ** The program *)

(** Module constants (lines 29-30). *)
Definition c : Q := 299000000.
Definition fc : Q := 2440000000.

(** The keyword parameters of [livedoppler]. *)
Record params : Type := {
  cpi : Q;
  loopduration : Q;
  maxspeed : Q;
  Fs : Q
}.

Definition default_params : params :=
  {| cpi := 1 # 2; loopduration := 60; maxspeed := 30; Fs := 2000 |}.

(** The local variables of [livedoppler] that the loop reads or writes. *)
Record locals : Type := {
  windowsize : Z;
  han : list R;
  speedaxis : list Q;
  doppler : list (list xreal);
  rawbin : list byte;
  cbyte : option byte;
  raw8bit : list Z;
  raw12bit : list Z;
  data : list R
}.

Definition set_doppler (d : list (list xreal)) (s : locals) : locals :=
  {| windowsize := windowsize s; han := han s; speedaxis := speedaxis s;
     doppler := d; rawbin := rawbin s; cbyte := cbyte s;
     raw8bit := raw8bit s; raw12bit := raw12bit s; data := data s |}.

Definition set_rawbin (b : list byte) (s : locals) : locals :=
  {| windowsize := windowsize s; han := han s; speedaxis := speedaxis s;
     doppler := doppler s; rawbin := b; cbyte := cbyte s;
     raw8bit := raw8bit s; raw12bit := raw12bit s; data := data s |}.

Definition set_cbyte (b : option byte) (s : locals) : locals :=
  {| windowsize := windowsize s; han := han s; speedaxis := speedaxis s;
     doppler := doppler s; rawbin := rawbin s; cbyte := b;
     raw8bit := raw8bit s; raw12bit := raw12bit s; data := data s |}.

Definition set_raw8bit (l : list Z) (s : locals) : locals :=
  {| windowsize := windowsize s; han := han s; speedaxis := speedaxis s;
     doppler := doppler s; rawbin := rawbin s; cbyte := cbyte s;
     raw8bit := l; raw12bit := raw12bit s; data := data s |}.

Definition set_raw12bit (l : list Z) (s : locals) : locals :=
  {| windowsize := windowsize s; han := han s; speedaxis := speedaxis s;
     doppler := doppler s; rawbin := rawbin s; cbyte := cbyte s;
     raw8bit := raw8bit s; raw12bit := l; data := data s |}.

Definition set_data (l : list R) (s : locals) : locals :=
  {| windowsize := windowsize s; han := han s; speedaxis := speedaxis s;
     doppler := doppler s; rawbin := rawbin s; cbyte := cbyte s;
     raw8bit := raw8bit s; raw12bit := raw12bit s; data := l |}.

(** Line 74: [windowsize = int(cpi*Fs)]. *)
Definition windowsize_of (p : params) : Z := py_int (cpi p * Fs p).

(** [int(windowsize/2)], the number of one-sided bins. *)
Definition half (w : Z) : Z := py_int (inject_Z w / 2).

(** Entry [k] of the speed axis as line 76 computes it: the integer [k]
    of [fftfreq] times [val = 1.0/(n*d)] with [d = 1.0/Fs], times [c],
    over [fc]. *)
Definition bin_speed (p : params) (k : Z) : Q :=
  (inject_Z k * (1 / (inject_Z (windowsize_of p) * (1 / Fs p))) * c / fc)%Q.

(** Line 77, first dimension: [int(loopduration/cpi)]. *)
Definition depth_of (p : params) : Z := py_int (loopduration p / cpi p).

(** Line 76: the speed axis before the crop. *)
Definition speedaxis_uncropped (p : params) : result (list Q) :=
  d <- py_div 1 (Fs p) ;;
  freq <- np_fft_fftfreq (windowsize_of p) d ;;
  Ok (py_slice_to (half (windowsize_of p))
        (map (fun f => (f * c / fc)%Q) freq)).

(** The boolean array [speedaxis <= maxspeed]. *)
Definition speed_mask (p : params) (axis : list Q) : list bool :=
  map (fun s => Qle_bool s (maxspeed p)) axis.

(** Lines 74-82: everything computed before the loop. *)
Definition setup (p : params) : result locals :=
  let w := windowsize_of p in
  let h := np_hanning w in
  axis <- speedaxis_uncropped p ;;
  depth <- py_div (loopduration p) (cpi p) ;;
  d <- np_zeros (py_int depth) (half w) ;;
  d' <- np_mask_cols (speed_mask p axis) (Z.to_nat (half w)) d ;;
  axis' <- np_mask (speed_mask p axis) axis ;;
  Ok {| windowsize := w; han := h; speedaxis := axis'; doppler := d';
        rawbin := []; cbyte := None;
        raw8bit := []; raw12bit := []; data := [] |}.

(** [ord] of a one-byte string. *)
Definition ord (b : byte) : Z := Z.of_N (Byte.to_N b).

(** Line 94: [256*evens + odds]. *)
Definition compose12 (raw8 : list Z) : result (list Z) :=
  np_broadcast (fun hi lo => (256 * hi + lo)%Z) (py_evens raw8) (py_odds raw8).

(** Line 95, one entry: [raw12*3.3/(2**12) - 3.3/2]. *)
Definition volts (raw12 : Z) : R :=
  (IZR raw12 * 3.3 / IZR (2 ^ 12) - 3.3 / 2)%R.

(** Lines 93-95 together: the samples of a block of raw bytes. *)
Definition decode (raw : list byte) : result (list R) :=
  r12 <- compose12 (map ord raw) ;;
  Ok (map volts r12).

(** The windowed samples [han*data] when the lengths agree. *)
Definition windowed (h d : list R) : list R :=
  map (fun p => (fst p * snd p)%R) (combine h d).

(** Line 98, right-hand side:
    [20*np.log10(np.abs(np.fft.fft(han*data))[0:K])]. *)
Definition spectrum_row (h d : list R) (K : nat) : result (list xreal) :=
  hd <- np_broadcast Rmult h d ;;
  X <- np_fft_fft hd ;;
  Ok (map times20 (map np_log10 (firstn K (map np_abs X)))).

(** Lines 97-98: one update of the waterfall with a finished row. *)
Definition update (buf : list (list xreal)) (row : list xreal)
    : result (list (list xreal)) :=
  assign_row0 (np_roll1 buf) row.

(** A run of updates, oldest row first. *)
Fixpoint updates (buf : list (list xreal)) (rows : list (list xreal))
    : result (list (list xreal)) :=
  match rows with
  | [] => Ok buf
  | r :: rest => b <- update buf r ;; updates b rest
  end.

(** Line 90: the test that starts the processing of a block. *)
Definition frame_ready (s : locals) : bool :=
  (2 * windowsize s <=? Z.of_nat (length (rawbin s)))%Z.

(** The statements of the loop body, named by their line. *)
Inductive pc : Type :=
| L87 | L88 | L90 | L91 | L93 | L94 | L95 | L97 | L98 | L100 | L103.

(** One statement.  [inp] is what [ser.read()] returns should the
    statement be the read: one byte, or nothing.  Line 91 discards what
    the port has buffered, which only changes later reads; lines 100-102
    draw. *)
Definition step (inp : option byte) (at_ : pc) (s : locals)
    : result (pc * locals) :=
  match at_ with
  | L87 => Ok (L88, set_cbyte inp s)
  | L88 => match cbyte s with
           | Some b => Ok (L90, set_rawbin (rawbin s ++ [b]) s)
           | None => Ok (L90, s)
           end
  | L90 => if frame_ready s then Ok (L91, s) else Ok (L87, s)
  | L91 => Ok (L93, s)
  | L93 => Ok (L94, set_raw8bit (map ord (rawbin s)) s)
  | L94 => r12 <- compose12 (raw8bit s) ;; Ok (L95, set_raw12bit r12 s)
  | L95 => Ok (L97, set_data (map volts (raw12bit s)) s)
  | L97 => Ok (L98, set_doppler (np_roll1 (doppler s)) s)
  | L98 => row <- spectrum_row (han s) (data s) (length (speedaxis s)) ;;
           d <- assign_row0 (doppler s) row ;;
           Ok (L100, set_doppler d s)
  | L100 => Ok (L103, s)
  | L103 => Ok (L87, set_rawbin [] s)
  end.

(** [n] statements of the loop, reading from [inputs]; a port with
    nothing left to give returns nothing. *)
Fixpoint run (n : nat) (inputs : list (option byte)) (at_ : pc) (s : locals)
    : result (pc * locals) :=
  match n with
  | O => Ok (at_, s)
  | S n' =>
      let inp := match at_, inputs with
                 | L87, i :: _ => i
                 | _, _ => None
                 end in
      let rest := match at_ with L87 => tl inputs | _ => inputs end in
      st <- step inp at_ s ;;
      run n' rest (fst st) (snd st)
  end.

(** [livedoppler]: the loop runs until Ctrl-C raises [KeyboardInterrupt],
    here after [n] statements; the handler passes and the current
    [doppler] is returned. *)
Definition livedoppler (p : params) (inputs : list (option byte)) (n : nat)
    : result (list (list xreal)) :=
  s0 <- setup p ;;
  st <- run n inputs L87 s0 ;;
  Ok (doppler (snd st)).

(** Lines 91-103: the processing of a full block. *)
Definition process_frame (s : locals) : result locals :=
  let s1 := set_raw8bit (map ord (rawbin s)) s in
  r12 <- compose12 (raw8bit s1) ;;
  let s2 := set_raw12bit r12 s1 in
  let s3 := set_data (map volts (raw12bit s2)) s2 in
  let s4 := set_doppler (np_roll1 (doppler s3)) s3 in
  row <- spectrum_row (han s4) (data s4) (length (speedaxis s4)) ;;
  d <- assign_row0 (doppler s4) row ;;
  Ok (set_rawbin [] (set_doppler d s4)).

(** Lines 87-89: the read and the append. *)
Definition read_byte (inp : option byte) (s : locals) : locals :=
  let s1 := set_cbyte inp s in
  match cbyte s1 with
  | Some b => set_rawbin (rawbin s1 ++ [b]) s1
  | None => s1
  end.

(** One whole pass through the loop body, lines 87-103. *)
Definition iteration (inp : option byte) (s : locals) : result locals :=
  let s2 := read_byte inp s in
  if frame_ready s2 then process_frame s2 else Ok s2.

(** The number of statements a pass executes. *)
Definition statements (inp : option byte) (s : locals) : nat :=
  if frame_ready (read_byte inp s) then 11 else 3.

(** Whole passes, one per read. *)
Fixpoint iterations (inputs : list (option byte)) (s : locals) : result locals :=
  match inputs with
  | [] => Ok s
  | i :: rest => s' <- iteration i s ;; iterations rest s'
  end.

(** ** The transform as the specification words it

    Window, transform, magnitude of the first [N/2] bins (one-sided
    spectrum), decibels, then the crop to the first [K] bins. *)
Definition spec_one_sided (X : list complex) : list R :=
  firstn (length X / 2) (map np_abs X).

Definition spec_transform (h d : list R) (K : nat) : result (list xreal) :=
  hd <- np_broadcast Rmult h d ;;
  X <- np_fft_fft hd ;;
  Ok (firstn K (map (fun m => times20 (np_log10 m)) (spec_one_sided X))).

(** ** Shapes, whole rows and the loop invariant *)

(** A 2-D array of [depth] rows, each [width] wide. *)
Definition shape {A : Type} (depth width : nat) (a : list (list A)) : Prop :=
  length a = depth /\ Forall (fun r => length r = width) a.

(** The decibel row of one block of raw bytes. *)
Definition row_of_frame (s : locals) (frame : list byte) : result (list xreal) :=
  d <- decode frame ;;
  spectrum_row (han s) d (length (speedaxis s)).

(** A row is whole: still the zeros it was initialised to, or the
    complete decibel row of some full block. *)
Definition whole_row (s : locals) (r : list xreal) : Prop :=
  r = repeat (Fin 0%R) (length (speedaxis s)) \/
  exists frame : list byte,
    Z.of_nat (length frame) = (2 * windowsize s)%Z /\
    row_of_frame s frame = Ok r.

(** What [setup] establishes and no statement of the loop changes. *)
Definition same_frame (s0 s : locals) : Prop :=
  windowsize s = windowsize s0 /\ han s = han s0 /\
  speedaxis s = speedaxis s0.

(** What holds of the locals before the statement at each line. *)
Definition at_line (at_ : pc) (s : locals) : Prop :=
  let full := Z.of_nat (length (rawbin s)) = (2 * windowsize s)%Z in
  match at_ with
  | L87 | L88 => (Z.of_nat (length (rawbin s)) < 2 * windowsize s)%Z
  | L90 => (Z.of_nat (length (rawbin s)) <= 2 * windowsize s)%Z
  | L91 | L93 => full
  | L94 => full /\ raw8bit s = map ord (rawbin s)
  | L95 => full /\ compose12 (map ord (rawbin s)) = Ok (raw12bit s)
  | L97 | L98 => full /\ decode (rawbin s) = Ok (data s)
  | L100 | L103 => True
  end.

Definition invariant (s0 : locals) (at_ : pc) (s : locals) : Prop :=
  same_frame s0 s /\
  shape (length (doppler s0)) (length (speedaxis s0)) (doppler s) /\
  Forall (whole_row s0) (doppler s) /\
  at_line at_ s.

(** What [setup] guarantees of the locals it returns. *)
Definition well_formed (s0 : locals) : Prop :=
  (1 <= windowsize s0)%Z /\
  length (han s0) = Z.to_nat (windowsize s0) /\
  (length (speedaxis s0) <= Z.to_nat (windowsize s0))%nat /\
  rawbin s0 = [] /\
  doppler s0 = repeat (repeat (Fin 0%R) (length (speedaxis s0)))
                      (length (doppler s0)).

(** The statements left in the pass that is under way, up to the next
    read. *)
Fixpoint finish (fuel : nat) (at_ : pc) (s : locals) : result locals :=
  match at_, fuel with
  | L87, _ => Ok s
  | _, O => Ok s
  | _, S fuel' => st <- step None at_ s ;; finish fuel' (fst st) (snd st)
  end.

(** ** Concrete inputs used below *)

(** A small set-up: windows of two samples, a buffer two rows deep. *)
Definition small_params : params :=
  {| cpi := 1; loopduration := 2; maxspeed := 30; Fs := 2 |}.

(** A block of [n] mid-scale samples: [n] times the bytes [0x08 0x00],
    the 12-bit value 2048, 0 V. *)
Fixpoint midscale_frame (n : nat) : list byte :=
  match n with
  | O => []
  | S n' => x08 :: x00 :: midscale_frame n'
  end.

(** The locals [setup small_params] returns. *)
Definition small_start : locals :=
  {| windowsize := 2; han := np_hanning 2;
     speedaxis := [bin_speed small_params 0];
     doppler := [[Fin 0%R]; [Fin 0%R]];
     rawbin := []; cbyte := None;
     raw8bit := []; raw12bit := []; data := [] |}.

(** Two blocks of mid-scale samples arriving byte by byte. *)
Definition two_frames : list (option byte) :=
  map Some (midscale_frame 2 ++ midscale_frame 2).

(** ** Reads, bytes and blocks *)

(** The bytes that a sequence of reads delivers. *)
Fixpoint bytes_of (inputs : list (option byte)) : list byte :=
  match inputs with
  | [] => []
  | Some b :: rest => b :: bytes_of rest
  | None :: rest => bytes_of rest
  end.

(** The locals after lines 87-89 have read and appended each of [bs]. *)
Definition feed (bs : list byte) (s : locals) : locals :=
  fold_left (fun acc b => read_byte (Some b) acc) bs s.

(** The locals with the last read forgotten. *)
Definition forget_cbyte (s : locals) : locals := set_cbyte None s.

(** What holds before a statement while the reads still to come cannot
    fill a block: the buffer is still [d0] and the bytes held, the byte
    just read and the bytes to come stay below [2*windowsize]. *)
Definition quiet (d0 : list (list xreal)) (inputs : list (option byte))
    (at_ : pc) (s : locals) : Prop :=
  doppler s = d0 /\
  match at_ with
  | L87 | L90 =>
      (Z.of_nat (length (rawbin s) + length (bytes_of inputs))
       < 2 * windowsize s)%Z
  | L88 =>
      (Z.of_nat (length (rawbin s)
                 + length (bytes_of (cbyte s :: inputs)))
       < 2 * windowsize s)%Z
  | _ => False
  end.

(** Parameters whose buffer has no row: [loopduration] below [cpi]. *)
Definition shallow_params : params :=
  {| cpi := 1; loopduration := 1 # 2; maxspeed := 30; Fs := 2 |}.

(** An array entry moved by [g] decibels; [-inf] and [nan] stay. *)
Definition shift_db (g : R) (v : xreal) : xreal :=
  match v with
  | Fin r => Fin (r + g)%R
  | NegInf => NegInf
  | NaN => NaN
  end.

(** * Properties *)

(** ** Lists and slices *)

Lemma list_pair_ind {A : Type} (P : list A -> Prop) :
  P [] -> (forall x, P [x]) ->
  (forall x y t, P t -> P (x :: y :: t)) ->
  forall l, P l.
Proof.
  intros H0 H1 H2.
  assert (H : forall l, P l /\ forall x, P (x :: l)).
  { induction l as [|y t [IH1 IH2]]; split; auto. }
  intro l. apply H.
Qed.

Lemma half_length_SS {A : Type} (x y : A) (t : list A) :
  (length (x :: y :: t) / 2 = S (length t / 2))%nat.
Proof.
  change (length (x :: y :: t)) with (2 + length t)%nat.
  replace (2 + length t)%nat with (length t + 1 * 2)%nat by lia.
  rewrite Nat.div_add by lia. lia.
Qed.

Lemma py_evens_odds_length {A : Type} (l : list A) :
  Nat.even (length l) = true ->
  length (py_evens l) = (length l / 2)%nat /\
  length (py_odds l) = (length l / 2)%nat.
Proof.
  induction l as [|x|x y t IH] using list_pair_ind; intro He.
  - split; reflexivity.
  - discriminate He.
  - destruct (IH He) as [E O]. rewrite half_length_SS. split.
    + simpl. now rewrite E.
    + simpl. destruct t as [|z t']; [reflexivity|].
      simpl in O. simpl. now rewrite O.
Qed.

Lemma np_broadcast_same {A B C : Type} (f : A -> B -> C) xs ys :
  length xs = length ys ->
  np_broadcast f xs ys = Ok (map (fun p => f (fst p) (snd p)) (combine xs ys)).
Proof.
  intro H. unfold np_broadcast. now rewrite H, Nat.eqb_refl.
Qed.

Lemma length_np_broadcast_same {A B C : Type} (f : A -> B -> C) xs ys r :
  length xs = length ys ->
  np_broadcast f xs ys = Ok r -> length r = length xs.
Proof.
  intros H E. rewrite np_broadcast_same in E by exact H.
  injection E as <-. rewrite length_map, length_combine. lia.
Qed.

Lemma compress_filter {A : Type} (p : A -> bool) (l : list A) :
  compress (map p l) l = filter p l.
Proof.
  induction l as [|x t IH]; simpl; [reflexivity|].
  destruct (p x); now rewrite IH.
Qed.

Lemma compress_repeat {A : Type} (x : A) (mask : list bool) :
  compress mask (repeat x (length mask)) =
  repeat x (length (filter (fun b => b) mask)).
Proof.
  induction mask as [|b t IH]; simpl; [reflexivity|].
  destruct b; simpl; now rewrite IH.
Qed.

Lemma filter_id_map {A : Type} (p : A -> bool) (l : list A) :
  length (filter (fun b => b) (map p l)) = length (filter p l).
Proof.
  induction l as [|x t IH]; simpl; [reflexivity|].
  destruct (p x); simpl; now rewrite IH.
Qed.

Lemma length_np_arange (a b : Z) : length (np_arange a b) = Z.to_nat (b - a).
Proof. unfold np_arange. now rewrite length_map, length_seq. Qed.

Lemma firstn_seq_min (m a n : nat) :
  firstn m (seq a n) = seq a (Nat.min m n).
Proof.
  revert a n. induction m as [|m IH]; intros a n; [reflexivity|].
  destruct n as [|n]; [reflexivity|]. simpl. f_equal. apply IH.
Qed.

Lemma firstn_np_arange (m : nat) (b : Z) :
  (m <= Z.to_nat b)%nat ->
  firstn m (np_arange 0 b) = map Z.of_nat (seq 0 m).
Proof.
  intro H. unfold np_arange. rewrite firstn_map, Z.sub_0_r, firstn_seq_min, Nat.min_l by exact H.
  apply map_ext. intro i. lia.
Qed.

Lemma length_np_roll1 {A : Type} (a : list A) : length (np_roll1 a) = length a.
Proof.
  destruct a as [|x t]; [reflexivity|].
  unfold np_roll1.
  assert (N : x :: t <> []) by discriminate.
  pose proof (app_removelast_last x N) as E.
  apply (f_equal (@length A)) in E. rewrite length_app in E.
  simpl in E |- *. lia.
Qed.

Lemma np_roll1_snoc {A : Type} (l : list A) (x : A) :
  np_roll1 (l ++ [x]) = x :: l.
Proof.
  unfold np_roll1. destruct (l ++ [x]) as [|y t] eqn:E.
  - destruct l; discriminate E.
  - rewrite <- E. now rewrite last_last, removelast_last.
Qed.

Lemma In_np_roll1 {A : Type} (a : list A) (r : A) :
  In r (np_roll1 a) -> In r a.
Proof.
  destruct a as [|x t]; [easy|].
  assert (N : x :: t <> []) by discriminate.
  pose proof (app_removelast_last x N) as E.
  unfold np_roll1. intro H. rewrite E. apply in_or_app.
  destruct H as [H | H]; [right; now left | now left].
Qed.

(** ** What [setup] computes *)

Lemma py_int_nonzero (q : Q) : (1 <= py_int q)%Z -> ~ (q == 0)%Q.
Proof.
  unfold py_int, Qeq. intros H E. simpl in E.
  rewrite Z.mul_1_r in E. rewrite E in H.
  rewrite Z.quot_0_l in H by discriminate. lia.
Qed.

Lemma windowsize_params_nonzero (p : params) :
  (1 <= windowsize_of p)%Z -> ~ (Fs p == 0)%Q /\ ~ (cpi p == 0)%Q.
Proof.
  intro H. apply py_int_nonzero in H. split; intro E; apply H; rewrite E.
  - apply Qmult_0_r.
  - apply Qmult_0_l.
Qed.

Lemma py_div_Ok (x y : Q) : ~ (y == 0)%Q -> py_div x y = Ok (x / y)%Q.
Proof.
  intro H. unfold py_div. destruct (Qeq_bool y 0) eqn:E; [|reflexivity].
  apply Qeq_bool_eq in E. contradiction.
Qed.

Lemma py_div_Ok_inv (x y q : Q) :
  py_div x y = Ok q -> ~ (y == 0)%Q /\ q = (x / y)%Q.
Proof.
  unfold py_div. destruct (Qeq_bool y 0) eqn:E; [discriminate|].
  intro H. injection H as <-. split; [|reflexivity].
  now apply Qeq_bool_neq.
Qed.

Lemma half_div2 (w : Z) : (0 <= w)%Z -> half w = (w / 2)%Z.
Proof.
  intro H. unfold half, py_int. simpl.
  rewrite Z.mul_1_r. now rewrite Z.quot_div_nonneg by lia.
Qed.

Lemma half_bounds (w : Z) :
  (1 <= w)%Z -> (0 <= half w)%Z /\ (half w <= (w - 1) / 2 + 1)%Z /\ (half w <= w)%Z.
Proof.
  intro H. rewrite half_div2 by lia.
  pose proof (Z.div_pos w 2). 
  assert ((w - 1) / 2 + 1 = (w + 1) / 2)%Z as ->.
  { replace (w + 1)%Z with (w - 1 + 1 * 2)%Z by lia.
    now rewrite Z.div_add by lia. }
  repeat split; try lia.
  - apply Z.div_le_mono; lia.
  - apply Z.div_le_upper_bound; lia.
Qed.

Lemma inv_Fs_nonzero (p : params) :
  (1 <= windowsize_of p)%Z ->
  ~ (inject_Z (windowsize_of p) * (1 / Fs p) == 0)%Q.
Proof.
  intros H E. destruct (windowsize_params_nonzero p H) as [HF _].
  apply Qmult_integral in E. destruct E as [E | E].
  - unfold Qeq in E. simpl in E. lia.
  - apply HF. rewrite <- (Qinv_involutive (Fs p)).
    unfold Qdiv in E. rewrite Qmult_1_l in E. rewrite E. reflexivity.
Qed.

Lemma speedaxis_uncropped_Ok (p : params) :
  (1 <= windowsize_of p)%Z ->
  speedaxis_uncropped p =
  Ok (map (fun k => bin_speed p (Z.of_nat k))
          (seq 0 (Z.to_nat (half (windowsize_of p))))).
Proof.
  intro H. unfold speedaxis_uncropped.
  destruct (windowsize_params_nonzero p H) as [HF _].
  rewrite (py_div_Ok 1 (Fs p) HF). cbn [bind].
  unfold np_fft_fftfreq.
  rewrite (py_div_Ok 1 _ (inv_Fs_nonzero p H)). cbn [bind].
  destruct (Z.ltb_spec (windowsize_of p) 0) as [L|_]; [lia|]. cbn [bind].
  f_equal. destruct (half_bounds _ H) as (H0 & H1 & _).
  unfold py_slice_to.
  destruct (Z.ltb_spec (half (windowsize_of p)) 0) as [L|_]; [lia|].
  rewrite !firstn_map, firstn_app, length_np_arange, Z.sub_0_r.
  replace (Z.to_nat (half (windowsize_of p)) -
           Z.to_nat ((windowsize_of p - 1) / 2 + 1))%nat with 0%nat by lia.
  rewrite firstn_O, app_nil_r, firstn_np_arange by lia.
  rewrite !map_map. reflexivity.
Qed.

Lemma speedaxis_uncropped_Ok_inv (p : params) (axis : list Q) :
  speedaxis_uncropped p = Ok axis -> (1 <= windowsize_of p)%Z.
Proof.
  unfold speedaxis_uncropped, np_fft_fftfreq.
  destruct (py_div 1 (Fs p)) as [d|] eqn:E1; [|discriminate]. cbn [bind].
  destruct (py_div 1 (inject_Z (windowsize_of p) * d)) as [v|] eqn:E2;
    [|discriminate]. cbn [bind].
  destruct (Z.ltb_spec (windowsize_of p) 0) as [L|G]; [discriminate|].
  intros _. apply py_div_Ok_inv in E2. destruct E2 as [N _].
  destruct (Z.eq_dec (windowsize_of p) 0) as [Z0|]; [|lia].
  exfalso. apply N. rewrite Z0. apply Qmult_0_l.
Qed.

Lemma np_zeros_Ok (r k : Z) :
  (0 <= r)%Z -> (0 <= k)%Z ->
  np_zeros r k = Ok (repeat (repeat (Fin 0%R) (Z.to_nat k)) (Z.to_nat r)).
Proof.
  intros Hr Hk. unfold np_zeros.
  destruct (Z.ltb_spec r 0); [lia|]. destruct (Z.ltb_spec k 0); [lia|].
  reflexivity.
Qed.

(** The locals as [setup] leaves them, written out. *)
Lemma setup_Ok (p : params) :
  (1 <= windowsize_of p)%Z -> (0 <= depth_of p)%Z ->
  let axis := map (fun k => bin_speed p (Z.of_nat k))
                  (seq 0 (Z.to_nat (half (windowsize_of p)))) in
  let axis' := filter (fun s => Qle_bool s (maxspeed p)) axis in
  setup p =
  Ok {| windowsize := windowsize_of p;
        han := np_hanning (windowsize_of p);
        speedaxis := axis';
        doppler := repeat (repeat (Fin 0%R) (length axis'))
                          (Z.to_nat (depth_of p));
        rawbin := []; cbyte := None;
        raw8bit := []; raw12bit := []; data := [] |}.
Proof.
  intros H D axis axis'. unfold setup.
  rewrite (speedaxis_uncropped_Ok p H). cbn [bind]. fold axis.
  destruct (windowsize_params_nonzero p H) as [_ HC].
  rewrite (py_div_Ok _ _ HC). cbn [bind].
  destruct (half_bounds _ H) as (H0 & _).
  fold (depth_of p). rewrite np_zeros_Ok by assumption. cbn [bind].
  assert (L : length (speed_mask p axis) = Z.to_nat (half (windowsize_of p))).
  { unfold speed_mask, axis. now rewrite !length_map, length_seq. }
  unfold np_mask_cols. rewrite L, Nat.eqb_refl. cbn [bind].
  assert (La : length (speed_mask p axis) = length axis).
  { unfold speed_mask. apply length_map. }
  unfold np_mask. rewrite La, Nat.eqb_refl. cbn [bind].
  assert (Ea : compress (speed_mask p axis) axis = axis').
  { unfold speed_mask. apply compress_filter. }
  rewrite Ea. do 2 f_equal. rewrite map_repeat. f_equal.
  rewrite <- L, compress_repeat. f_equal.
  unfold speed_mask. apply filter_id_map.
Qed.

Lemma setup_Ok_inv (p : params) (s0 : locals) :
  setup p = Ok s0 -> (1 <= windowsize_of p)%Z /\ (0 <= depth_of p)%Z.
Proof.
  unfold setup.
  destruct (speedaxis_uncropped p) as [axis|] eqn:E1; [|discriminate].
  cbn [bind]. apply speedaxis_uncropped_Ok_inv in E1.
  destruct (py_div (loopduration p) (cpi p)) as [q|] eqn:E2; [|discriminate].
  cbn [bind]. apply py_div_Ok_inv in E2. destruct E2 as [_ ->].
  fold (depth_of p). unfold np_zeros.
  destruct (Z.ltb_spec (depth_of p) 0); [discriminate|].
  intros _. split; assumption.
Qed.

(** ** The signal path *)

Lemma length_np_hanning (M : Z) :
  (0 <= M)%Z -> length (np_hanning M) = Z.to_nat M.
Proof.
  intro H. unfold np_hanning.
  destruct (Z.ltb_spec M 1) as [L|G]; [simpl; lia|].
  destruct (Z.eqb_spec M 1) as [->|N]; [reflexivity|].
  unfold np_arange2. rewrite !length_map, length_seq.
  replace (M - (1 - M) + 1)%Z with (M * 2)%Z by lia.
  now rewrite Z.div_mul by lia.
Qed.

Lemma ord_range (b : byte) : (0 <= ord b <= 255)%Z.
Proof.
  unfold ord. pose proof (Byte.to_N_bounded b). lia.
Qed.

Lemma compose12_Ok (raw8 : list Z) :
  Nat.even (length raw8) = true ->
  exists r12, compose12 raw8 = Ok r12 /\ length r12 = (length raw8 / 2)%nat.
Proof.
  intro He. destruct (py_evens_odds_length raw8 He) as [E O].
  unfold compose12. rewrite np_broadcast_same by congruence.
  eexists. split; [reflexivity|].
  rewrite length_map, length_combine. lia.
Qed.

Lemma decode_Ok (raw : list byte) :
  Nat.even (length raw) = true ->
  exists d, decode raw = Ok d /\ length d = (length raw / 2)%nat.
Proof.
  intro He. unfold decode.
  destruct (compose12_Ok (map ord raw)) as (r12 & E & L).
  { now rewrite length_map. }
  rewrite E. cbn [bind]. eexists. split; [reflexivity|].
  now rewrite length_map, L, length_map.
Qed.

Lemma even_double (n : nat) (w : Z) :
  Z.of_nat n = (2 * w)%Z -> Nat.even n = true /\ (n / 2)%nat = Z.to_nat w.
Proof.
  intro H. assert (E : n = (2 * Z.to_nat w)%nat) by lia.
  rewrite E. split.
  - rewrite Nat.even_mul. reflexivity.
  - rewrite Nat.mul_comm. apply Nat.div_mul. lia.
Qed.

Lemma volts_range (raw12 : Z) :
  (0 <= raw12 <= 4095)%Z -> (-1.65 <= volts raw12 < 1.65)%R.
Proof.
  intro H. unfold volts. change (2 ^ 12)%Z with 4096%Z.
  assert (0 <= IZR raw12 <= 4095)%R by (split; apply IZR_le; lia).
  lra.
Qed.

Lemma volts_midscale : volts 2048 = 0%R.
Proof. unfold volts. change (2 ^ 12)%Z with 4096%Z. lra. Qed.

Lemma np_fft_fft_Ok (x : list R) :
  x <> [] -> np_fft_fft x = Ok (map (dft_bin x) (seq 0 (length x))).
Proof. destruct x; [congruence | reflexivity]. Qed.

Lemma spectrum_row_Ok (h d : list R) (K : nat) :
  length h = length d -> d <> [] ->
  spectrum_row h d K =
  Ok (map (fun k => times20 (np_log10 (np_abs (dft_bin (windowed h d) k))))
          (seq 0 (Nat.min K (length d)))).
Proof.
  intros L N. unfold spectrum_row.
  rewrite np_broadcast_same by exact L. cbn [bind]. fold (windowed h d).
  assert (Lw : length (windowed h d) = length d).
  { unfold windowed. rewrite length_map, length_combine. lia. }
  rewrite np_fft_fft_Ok.
  - cbn [bind]. f_equal.
    rewrite !firstn_map, firstn_seq_min, !map_map, Lw. reflexivity.
  - intro E. rewrite E in Lw. destruct d; [congruence | discriminate Lw].
Qed.

Lemma length_spectrum_row (h d : list R) (K : nat) (row : list xreal) :
  length h = length d -> d <> [] -> (K <= length d)%nat ->
  spectrum_row h d K = Ok row -> length row = K.
Proof.
  intros L N HK E. rewrite spectrum_row_Ok in E by assumption.
  injection E as <-. rewrite length_map, length_seq. lia.
Qed.

Lemma Rsum_zero (l : list R) : Forall (fun x => x = 0%R) l -> Rsum l = 0%R.
Proof.
  induction 1 as [|x t Hx _ IH]; simpl; [reflexivity|].
  rewrite Hx, IH. lra.
Qed.

Lemma combine_zero_r {A : Type} (f : A * R -> R) (l : list A) (x : list R) :
  (forall a, f (a, 0%R) = 0%R) ->
  Forall (fun v => v = 0%R) x ->
  Forall (fun v => v = 0%R) (map f (combine l x)).
Proof.
  intros Hf Hx. revert l. induction Hx as [|v t Hv _ IH]; intro l.
  - destruct l; constructor.
  - destruct l as [|a l']; [constructor|]. simpl. constructor.
    + rewrite Hv. apply Hf.
    + apply IH.
Qed.

Lemma dft_bin_zero (x : list R) (k : nat) :
  Forall (fun v => v = 0%R) x -> dft_bin x k = (0%R, 0%R).
Proof.
  intro H. unfold dft_bin. f_equal; apply Rsum_zero; apply combine_zero_r;
    try exact H; intro a; simpl; lra.
Qed.

Lemma windowed_zero (h d : list R) :
  Forall (fun v => v = 0%R) d -> Forall (fun v => v = 0%R) (windowed h d).
Proof.
  intro H. unfold windowed. apply combine_zero_r; [|exact H].
  intro a. simpl. lra.
Qed.

Lemma np_log10_abs_zero : times20 (np_log10 (np_abs (0%R, 0%R))) = NegInf.
Proof.
  unfold np_abs. simpl. replace (0 * 0 + 0 * 0)%R with 0%R by lra.
  rewrite sqrt_0. unfold np_log10.
  destruct (Req_dec_T 0 0) as [_|N]; [reflexivity | now destruct N].
Qed.

Lemma spectrum_row_zero (h d : list R) (K : nat) :
  length h = length d -> d <> [] -> (K <= length d)%nat ->
  Forall (fun v => v = 0%R) d ->
  spectrum_row h d K = Ok (repeat NegInf K).
Proof.
  intros L N HK Z0. rewrite spectrum_row_Ok by assumption. f_equal.
  rewrite Nat.min_l by exact HK.
  rewrite (map_ext _ (fun _ => NegInf)).
  - clear. generalize 0%nat. induction K as [|K IH]; intro a; simpl;
      [reflexivity | now rewrite IH].
  - intro k. rewrite dft_bin_zero by now apply windowed_zero.
    apply np_log10_abs_zero.
Qed.

Lemma np_abs_nonneg (z : complex) : (0 <= np_abs z)%R.
Proof. apply sqrt_pos. Qed.

Lemma np_log10_nonneg (x : R) :
  (0 <= x)%R ->
  (x = 0%R /\ np_log10 x = NegInf) \/
  (x <> 0%R /\ np_log10 x = Fin (ln x / ln 10)%R).
Proof.
  intro H. unfold np_log10. destruct (Req_dec_T x 0) as [E|N].
  - left. now split.
  - right. split; [exact N|]. destruct (Rlt_dec x 0); [lra | reflexivity].
Qed.

(** ** The waterfall buffer *)

Lemma Forall_np_roll1 {A : Type} (P : A -> Prop) (a : list A) :
  Forall P a -> Forall P (np_roll1 a).
Proof.
  rewrite !Forall_forall. intros H r Hr. apply H. now apply In_np_roll1.
Qed.

Lemma removelast_length {A : Type} (l : list A) :
  length (removelast l) = pred (length l).
Proof.
  rewrite removelast_firstn_len, length_firstn. lia.
Qed.

Lemma Forall_removelast {A : Type} (P : A -> Prop) (l : list A) :
  Forall P l -> Forall P (removelast l).
Proof.
  intro H. destruct l as [|x t]; [constructor|].
  assert (N : x :: t <> []) by discriminate.
  rewrite (app_removelast_last x N) in H.
  apply Forall_app in H. apply H.
Qed.

Lemma update_Ok (depth width : nat) (buf : list (list xreal)) (row : list xreal) :
  shape (S depth) width buf -> length row = width ->
  update buf row = Ok (row :: removelast buf).
Proof.
  intros [L F] Hr. unfold update.
  destruct buf as [|x t]; [discriminate L|].
  unfold np_roll1, assign_row0.
  assert (Hl : length (last (x :: t) x) = width).
  { assert (N : x :: t <> []) by discriminate.
    pose proof (app_removelast_last x N) as E. rewrite E in F.
    apply Forall_app in F. destruct F as [_ F]. now inversion F. }
  rewrite Hl, Hr, Nat.eqb_refl. reflexivity.
Qed.

Lemma update_shape (depth width : nat) (buf buf' : list (list xreal))
    (row : list xreal) :
  shape depth width buf -> length row = width ->
  update buf row = Ok buf' -> shape depth width buf'.
Proof.
  intros S0 Hr E. destruct depth as [|depth].
  - destruct S0 as [L _]. destruct buf; [discriminate E | discriminate L].
  - rewrite (update_Ok depth width) in E by assumption.
    injection E as <-. destruct S0 as [L F]. split.
    + simpl. rewrite removelast_length, L. reflexivity.
    + constructor; [exact Hr | now apply Forall_removelast].
Qed.

Lemma updates_Ok (width : nat) (rows : list (list xreal)) :
  Forall (fun r => length r = width) rows ->
  forall buf : list (list xreal),
    (length rows <= length buf)%nat ->
    Forall (fun r => length r = width) buf ->
    updates buf rows = Ok (rev rows ++ firstn (length buf - length rows) buf).
Proof.
  induction 1 as [|r rs Hr _ IH]; intros buf L F.
  - simpl. now rewrite Nat.sub_0_r, firstn_all.
  - simpl in L. destruct (length buf) as [|n] eqn:Eb; [lia|].
    cbn [updates]. rewrite (update_Ok n width) by (try split; assumption).
    cbn [bind].
    assert (Lb : length (r :: removelast buf) = S n).
    { simpl. rewrite removelast_length, Eb. reflexivity. }
    rewrite IH.
    + rewrite Lb. cbn [rev length]. rewrite <- app_assoc. do 2 f_equal.
      replace (S n - length rs)%nat with (S (n - length rs)) by lia.
      cbn [firstn app]. f_equal.
      change (S n - S (length rs))%nat with (n - length rs)%nat.
      apply firstn_removelast. lia.
    + rewrite Lb. lia.
    + constructor; [exact Hr | now apply Forall_removelast].
Qed.

Lemma assign_row0_Ok {A : Type} (r0 : list A) (rest : list (list A)) (v : list A) :
  length v = length r0 -> assign_row0 (r0 :: rest) v = Ok (v :: rest).
Proof.
  intro H. unfold assign_row0. now rewrite H, Nat.eqb_refl.
Qed.

Lemma shape_np_roll1 {A : Type} (depth width : nat) (a : list (list A)) :
  shape depth width a -> shape depth width (np_roll1 a).
Proof.
  intros [L F]. split; [now rewrite length_np_roll1 | now apply Forall_np_roll1].
Qed.

(** ** The loop invariant *)

Lemma setup_well_formed (p : params) (s0 : locals) :
  setup p = Ok s0 -> well_formed s0.
Proof.
  intro E. destruct (setup_Ok_inv p s0 E) as [HW HD].
  rewrite (setup_Ok p HW HD) in E. injection E as <-.
  unfold well_formed. cbn [windowsize han speedaxis rawbin doppler].
  repeat split.
  - exact HW.
  - apply length_np_hanning. lia.
  - etransitivity; [apply filter_length_le|].
    rewrite length_map, length_seq.
    destruct (half_bounds _ HW) as (_ & _ & H). lia.
  - now rewrite repeat_length.
Qed.

Lemma setup_invariant (p : params) (s0 : locals) :
  setup p = Ok s0 -> invariant s0 L87 s0.
Proof.
  intro E. pose proof (setup_well_formed p s0 E) as (HW & _ & _ & HR & HD).
  unfold invariant, same_frame, shape. repeat split.
  - rewrite HD. apply Forall_forall. intros r Hr.
    apply repeat_spec in Hr. subst r. apply repeat_length.
  - rewrite HD. apply Forall_forall. intros r Hr.
    apply repeat_spec in Hr. subst r. now left.
  - unfold at_line. rewrite HR. cbn [length]. lia.
Qed.

Lemma decode_full (s0 s : locals) (d : list R) :
  well_formed s0 -> same_frame s0 s ->
  Z.of_nat (length (rawbin s)) = (2 * windowsize s)%Z ->
  decode (rawbin s) = Ok d ->
  length (han s) = length d /\ d <> [] /\ (length (speedaxis s) <= length d)%nat.
Proof.
  intros (HW & HH & HK & _) (EW & EH & EA) HF ED.
  destruct (even_double _ _ HF) as [He Hh].
  destruct (decode_Ok _ He) as (d' & ED' & L).
  rewrite ED in ED'. injection ED' as <-.
  rewrite Hh, EW in L. rewrite EH, EA, L. repeat split; try lia.
  intro N. rewrite N in L. simpl in L. lia.
Qed.

Ltac simpl_locals :=
  cbn [at_line windowsize han speedaxis doppler rawbin cbyte raw8bit raw12bit
       data set_doppler set_rawbin set_cbyte set_raw8bit set_raw12bit
       set_data] in *.

Lemma step_invariant (s0 s s' : locals) (inp : option byte) (at_ at' : pc) :
  well_formed s0 -> invariant s0 at_ s ->
  step inp at_ s = Ok (at', s') -> invariant s0 at' s'.
Proof.
  intros WF (SF & SH & WR & AL) E.
  pose proof SF as (EW & EH & EA). pose proof SH as [LD FD].
  destruct at_; cbn [step] in E.
  - (* L87 *) injection E as <- <-. now repeat split.
  - (* L88 *) destruct (cbyte s) as [b|]; injection E as <- <-.
    + repeat split; try assumption. simpl_locals.
      rewrite length_app. cbn [length]. lia.
    + repeat split; try assumption. simpl_locals. lia.
  - (* L90 *) unfold frame_ready in E.
    destruct (Z.leb_spec (2 * windowsize s) (Z.of_nat (length (rawbin s))));
      injection E as <- <-; repeat split; try assumption; simpl_locals; lia.
  - (* L91 *) injection E as <- <-. now repeat split.
  - (* L93 *) injection E as <- <-. now repeat split.
  - (* L94 *) destruct AL as [HF E8]. rewrite E8 in E.
    destruct (compose12 (map ord (rawbin s))) as [r12|] eqn:E12;
      [|discriminate E]. cbn [bind] in E. injection E as <- <-.
    now repeat split.
  - (* L95 *) destruct AL as [HF E12]. injection E as <- <-.
    repeat split; try assumption. simpl_locals. unfold decode. now rewrite E12.
  - (* L97 *) injection E as <- <-. destruct AL as [HF ED].
    repeat split; try assumption; cbn [doppler set_doppler].
    + now rewrite length_np_roll1.
    + now apply Forall_np_roll1.
    + now apply Forall_np_roll1.
  - (* L98 *) destruct AL as [HF ED].
    destruct (spectrum_row (han s) (data s) (length (speedaxis s)))
      as [row|] eqn:ER; [|discriminate E]. cbn [bind] in E.
    destruct (assign_row0 (doppler s) row) as [d|] eqn:EA0; [|discriminate E].
    cbn [bind] in E. injection E as <- <-.
    destruct (decode_full s0 s _ WF SF HF ED) as (L1 & L2 & L3).
    pose proof (length_spectrum_row _ _ _ _ L1 L2 L3 ER) as Lrow.
    destruct (doppler s) as [|r0 rest] eqn:Edop; [discriminate EA0|].
    inversion FD as [|? ? Hr0 Frest]; subst.
    rewrite assign_row0_Ok in EA0 by congruence. injection EA0 as <-.
    repeat split; try assumption; cbn [doppler set_doppler].
    + constructor; [congruence | assumption].
    + inversion WR; subst. constructor; [|assumption].
      right. exists (rawbin s). split; [congruence|].
      unfold row_of_frame. rewrite ED. cbn [bind]. congruence.
  - (* L100 *) injection E as <- <-. now repeat split.
  - (* L103 *) injection E as <- <-. repeat split; try assumption.
    simpl_locals. cbn [length]. destruct WF as [HW _]. lia.
Qed.

Lemma step_total (s0 s : locals) (inp : option byte) (at_ : pc) :
  well_formed s0 -> (1 <= length (doppler s0))%nat -> invariant s0 at_ s ->
  exists st, step inp at_ s = Ok st.
Proof.
  intros WF D1 (SF & SH & WR & AL).
  destruct at_; cbn [step]; try (eexists; reflexivity).
  - destruct (cbyte s); eexists; reflexivity.
  - destruct (frame_ready s); eexists; reflexivity.
  - destruct AL as [HF E8]. destruct (even_double _ _ HF) as [He _].
    destruct (compose12_Ok (raw8bit s)) as (r12 & E & _).
    { now rewrite E8, length_map. }
    rewrite E. eexists. reflexivity.
  - destruct AL as [HF ED].
    destruct (decode_full s0 s _ WF SF HF ED) as (L1 & L2 & L3).
    rewrite spectrum_row_Ok by assumption. cbn [bind].
    destruct SH as [LD FD].
    destruct (doppler s) as [|r0 rest]; [simpl in LD; lia|].
    inversion FD as [|? ? Hr0 _]; subst.
    destruct SF as (_ & _ & EA).
    rewrite assign_row0_Ok.
    + eexists. reflexivity.
    + rewrite length_map, length_seq, Hr0. rewrite EA in L3 |- *. lia.
Qed.

Lemma run_invariant (s0 : locals) (n : nat) :
  well_formed s0 ->
  forall inputs at_ s st,
    invariant s0 at_ s -> run n inputs at_ s = Ok st ->
    invariant s0 (fst st) (snd st).
Proof.
  intro WF. induction n as [|n IH]; intros inputs at_ s st I E.
  - injection E as <-. exact I.
  - cbn [run] in E.
    destruct (step _ at_ s) as [[at' s']|] eqn:ES; [|discriminate E].
    cbn [bind fst snd] in E.
    eapply IH; [|exact E]. eapply step_invariant; eassumption.
Qed.

Lemma run_total (s0 : locals) (n : nat) :
  well_formed s0 -> (1 <= length (doppler s0))%nat ->
  forall inputs at_ s,
    invariant s0 at_ s -> exists st, run n inputs at_ s = Ok st.
Proof.
  intros WF D1. induction n as [|n IH]; intros inputs at_ s I.
  - eexists. reflexivity.
  - cbn [run].
    destruct (step_total s0 s
                (match at_, inputs with L87, i :: _ => i | _, _ => None end)
                at_ WF D1 I) as ([at' s'] & ES).
    rewrite ES. cbn [bind fst snd]. apply IH.
    eapply step_invariant; eassumption.
Qed.

(** ** The claims *)

(** C1.  For every analysis window of exactly [windowsize] samples the
    transform of line 98 succeeds and yields a row of exactly [K] entries,
    where [K], the length of the cropped speed axis, is the number of
    entries of the uncropped axis that are at most [maxspeed]; this holds
    for every set of parameters that [setup] accepts. *)
Theorem C1_transform_length (p : params) (s0 : locals) (d : list R) :
  setup p = Ok s0 ->
  length d = Z.to_nat (windowsize s0) ->
  exists (axis : list Q) (row : list xreal),
    speedaxis_uncropped p = Ok axis /\
    spectrum_row (han s0) d (length (speedaxis s0)) = Ok row /\
    length row = length (speedaxis s0) /\
    length (speedaxis s0) =
      length (filter (fun v => Qle_bool v (maxspeed p)) axis).
Proof.
  intros E L. pose proof (setup_well_formed p s0 E) as (HW & HH & HK & _).
  destruct (setup_Ok_inv p s0 E) as [W1 D0].
  pose proof E as E'. rewrite (setup_Ok p W1 D0) in E'. injection E' as <-.
  eexists. eexists.
  split; [apply (speedaxis_uncropped_Ok p W1)|].
  cbn [han speedaxis windowsize] in *.
  assert (N : d <> []).
  { intro Z0. rewrite Z0 in L. simpl in L. lia. }
  assert (Lh : length (np_hanning (windowsize_of p)) = length d) by congruence.
  rewrite spectrum_row_Ok by assumption.
  split; [reflexivity|]. split; [|reflexivity].
  rewrite length_map, length_seq. lia.
Qed.

Lemma C1_transform_length_witness :
  exists (s0 : locals) (row : list xreal),
    setup default_params = Ok s0 /\
    spectrum_row (han s0) (repeat 0%R 1000) (length (speedaxis s0)) = Ok row /\
    length row = 123%nat.
Proof.
  assert (W1 : (1 <= windowsize_of default_params)%Z) by (vm_compute; discriminate).
  assert (D0 : (0 <= depth_of default_params)%Z) by (vm_compute; discriminate).
  eexists.
  destruct (C1_transform_length default_params _ (repeat 0%R 1000)
              (setup_Ok default_params W1 D0) (repeat_length _ _))
    as (axis & row & Ea & Er & Lr & Lk).
  exists row. split; [apply (setup_Ok default_params W1 D0)|].
  split; [exact Er|]. rewrite Lr. cbn [speedaxis]. 
  lazy. reflexivity.
Defined.

Lemma py_evens_cons2 {A : Type} (x y : A) (t : list A) :
  py_evens (x :: y :: t) = x :: py_evens t.
Proof. reflexivity. Qed.

Lemma py_odds_cons2 {A : Type} (x y : A) (t : list A) :
  py_odds (x :: y :: t) = y :: py_odds t.
Proof. destruct t; reflexivity. Qed.

Lemma decode_cons2 (x y : byte) (t : list byte) (d : list R) :
  Nat.even (length t) = true ->
  decode t = Ok d ->
  decode (x :: y :: t) = Ok (volts (256 * ord x + ord y) :: d).
Proof.
  intros He. unfold decode, compose12.
  destruct (py_evens_odds_length (map ord t)) as [E O];
    [now rewrite length_map|].
  cbn [map]. rewrite py_evens_cons2, py_odds_cons2.
  rewrite !np_broadcast_same by (cbn [length]; congruence).
  cbn [bind combine map fst snd]. intro H. injection H as <-. reflexivity.
Qed.

(** Sample [i] of a decoded block comes from bytes [2i] and [2i+1]. *)
Lemma decode_nth (raw : list byte) :
  Nat.even (length raw) = true ->
  forall d, decode raw = Ok d ->
  forall i, (i < length raw / 2)%nat ->
    nth_error d i =
    Some (volts (256 * ord (nth (2 * i) raw x00) + ord (nth (2 * i + 1) raw x00))).
Proof.
  induction raw as [|x|x y t IH] using list_pair_ind; intros He d E i Hi.
  - simpl in Hi. lia.
  - discriminate He.
  - assert (Ht : Nat.even (length t) = true) by exact He.
    destruct (decode_Ok t Ht) as (d' & E' & _).
    rewrite (decode_cons2 x y t d' Ht E') in E. injection E as <-.
    rewrite half_length_SS in Hi.
    destruct i as [|i]; [reflexivity|].
    replace (2 * S i)%nat with (S (S (2 * i))) by lia.
    replace (S (S (2 * i)) + 1)%nat with (S (S (2 * i + 1))) by lia.
    cbn [nth_error nth]. apply IH; [exact Ht | exact E' | lia].
Qed.

(** C2.  An even-length block of bytes decodes to half as many samples:
    sample [i] is [raw12*3.3/4096 - 3.3/2] for
    [raw12 = 256*b[2i] + b[2i+1]]; and a 12-bit value, from 0 to 4095,
    gives a voltage at least -1.65 and below 1.65. *)
Theorem C2_decode (raw : list byte) :
  Nat.even (length raw) = true ->
  (exists d : list R,
     decode raw = Ok d /\
     length d = (length raw / 2)%nat /\
     forall i, (i < length raw / 2)%nat ->
       let raw12 := (256 * ord (nth (2 * i) raw x00)
                     + ord (nth (2 * i + 1) raw x00))%Z in
       nth_error d i = Some (IZR raw12 * 3.3 / 4096 - 3.3 / 2)%R) /\
  (forall raw12 : Z, (0 <= raw12 <= 4095)%Z ->
     (-1.65 <= volts raw12 < 1.65)%R).
Proof.
  intro He. split.
  - destruct (decode_Ok raw He) as (d & E & L).
    exists d. repeat split; try assumption.
    intros i Hi raw12. rewrite (decode_nth raw He d E i Hi). reflexivity.
  - apply volts_range.
Qed.

Lemma C2_decode_witness :
  (exists d : list R,
     decode [x08; x00; x0f; xff] = Ok d /\
     length d = 2%nat /\
     forall i, (i < 2)%nat ->
       let raw12 := (256 * ord (nth (2 * i) [x08; x00; x0f; xff] x00)
                     + ord (nth (2 * i + 1) [x08; x00; x0f; xff] x00))%Z in
       nth_error d i = Some (IZR raw12 * 3.3 / 4096 - 3.3 / 2)%R) /\
  (forall raw12 : Z, (0 <= raw12 <= 4095)%Z ->
     (-1.65 <= volts raw12 < 1.65)%R).
Proof.
  apply (C2_decode [x08; x00; x0f; xff]). reflexivity.
Defined.

Lemma Forall_repeat_eq {A : Type} (x : A) (n : nat) :
  Forall (fun v => v = x) (repeat x n).
Proof.
  apply Forall_forall. intros v Hv. now apply repeat_spec in Hv.
Qed.

(** C3, as the code has it.  No floor is applied before the logarithm.
    For a window of the right length the transform returns [K] bins, and
    bin [k] is [-inf] exactly when the magnitude [|X[k]|] is 0 and
    [20*log10 |X[k]|] otherwise, never [nan]; so an all-zero window gives
    a row of [K] entries that are all [-inf]. *)
Theorem C3_log_of_zero (h d : list R) (K : nat) :
  length h = length d -> d <> [] -> (K <= length d)%nat ->
  exists row : list xreal,
    spectrum_row h d K = Ok row /\
    length row = K /\
    (forall k, (k < K)%nat ->
       let m := np_abs (dft_bin (windowed h d) k) in
       (m = 0%R /\ nth_error row k = Some NegInf) \/
       (m <> 0%R /\ nth_error row k = Some (Fin (20 * (ln m / ln 10))%R))) /\
    (Forall (fun v => v = 0%R) d -> row = repeat NegInf K).
Proof.
  intros L N HK. eexists. split; [apply spectrum_row_Ok; assumption|].
  rewrite Nat.min_l by exact HK. split; [|split].
  - now rewrite length_map, length_seq.
  - intros k Hk m.
    rewrite nth_error_map, nth_error_nth' with (d := 0%nat)
      by (rewrite length_seq; exact Hk).
    rewrite seq_nth by exact Hk. cbn [option_map Nat.add]. fold m.
    destruct (np_log10_nonneg m (np_abs_nonneg _)) as [[Z0 E] | [NZ E]];
      rewrite E; [left | right]; now split.
  - intro Z0. pose proof (spectrum_row_zero h d K L N HK Z0) as E.
    rewrite spectrum_row_Ok, Nat.min_l in E by assumption.
    now injection E.
Qed.

Lemma C3_log_of_zero_witness :
  exists row : list xreal,
    spectrum_row (np_hanning 4) [0; 0; 0; 0]%R 2 = Ok row /\
    length row = 2%nat /\
    (forall k, (k < 2)%nat ->
       let m := np_abs (dft_bin (windowed (np_hanning 4) [0; 0; 0; 0]%R) k) in
       (m = 0%R /\ nth_error row k = Some NegInf) \/
       (m <> 0%R /\ nth_error row k = Some (Fin (20 * (ln m / ln 10))%R))) /\
    (Forall (fun v => v = 0%R) [0; 0; 0; 0]%R -> row = repeat NegInf 2).
Proof.
  apply (C3_log_of_zero (np_hanning 4) [0; 0; 0; 0]%R 2).
  - reflexivity.
  - discriminate.
  - simpl. lia.
Defined.

(** C3, refuted as stated.  With the default parameters (windows of 1000
    samples, 123 retained bins) the transform of the all-zero window is a
    row of 123 entries that are all [-inf]. *)
Lemma C3_counterexample :
  exists s0 : locals,
    setup default_params = Ok s0 /\
    windowsize s0 = 1000%Z /\
    spectrum_row (han s0) (repeat 0%R 1000) (length (speedaxis s0)) =
    Ok (repeat NegInf 123).
Proof.
  assert (W1 : (1 <= windowsize_of default_params)%Z) by (vm_compute; discriminate).
  assert (D0 : (0 <= depth_of default_params)%Z) by (vm_compute; discriminate).
  eexists. split; [apply (setup_Ok default_params W1 D0)|].
  split; [reflexivity|]. cbn [han speedaxis].
  assert (LK : length
     (filter (fun s : Q => Qle_bool s (maxspeed default_params))
        (map (fun k : nat => bin_speed default_params (Z.of_nat k))
           (seq 0 (Z.to_nat (half (windowsize_of default_params))))))
     = 123%nat) by (lazy; reflexivity).
  rewrite LK. apply spectrum_row_zero.
  - rewrite length_np_hanning, repeat_length by lia. reflexivity.
  - discriminate.
  - rewrite repeat_length. lia.
  - apply Forall_repeat_eq.
Qed.

Lemma removelast_rev_cons {A : Type} (x : A) (t : list A) :
  removelast (rev (x :: t)) = rev t.
Proof. cbn [rev]. apply removelast_last. Qed.

Lemma shape_repeat {A : Type} (r : list A) (depth : nat) :
  shape depth (length r) (repeat r depth).
Proof.
  split; [apply repeat_length|].
  apply Forall_forall. intros v Hv. now apply repeat_spec in Hv; subst.
Qed.

(** The processing of a full block is one [update] of the buffer with the
    decibel row of the block, and it empties the accumulator. *)
Lemma process_frame_update (s s' : locals) :
  process_frame s = Ok s' ->
  exists row : list xreal,
    row_of_frame s (rawbin s) = Ok row /\
    update (doppler s) row = Ok (doppler s') /\
    rawbin s' = [].
Proof.
  unfold process_frame, row_of_frame, decode, update. simpl_locals.
  destruct (compose12 (map ord (rawbin s))) as [r12|]; [|discriminate].
  cbn [bind]. simpl_locals.
  destruct (spectrum_row _ _ _) as [row|]; [|discriminate]. cbn [bind].
  destruct (assign_row0 _ _) as [d|] eqn:Ed; [|discriminate]. cbn [bind].
  intro H. injection H as <-. exists row. simpl_locals. now repeat split.
Qed.

(** C4.  Starting from the zero-filled buffer of [depth] rows, [depth]
    updates leave exactly the rows given, newest first: row [i] of the
    buffer is the row of update number [depth - 1 - i], so the oldest is
    at index [depth - 1].  One more update puts the new row at index 0
    and drops that oldest row and no other. *)
Theorem C4_update_order (depth width : nat)
    (rows : list (list xreal)) (extra : list xreal) :
  (1 <= depth)%nat ->
  length rows = depth ->
  Forall (fun r => length r = width) rows ->
  length extra = width ->
  exists (oldest : list xreal) (later : list (list xreal)),
    rows = oldest :: later /\
    updates (repeat (repeat (Fin 0%R) width) depth) rows = Ok (rev rows) /\
    (forall i, (i < depth)%nat ->
       nth_error (rev rows) i = nth_error rows (depth - 1 - i)) /\
    nth_error (rev rows) (depth - 1) = Some oldest /\
    update (rev rows) extra = Ok (extra :: rev later).
Proof.
  intros D L F Le.
  pose proof (shape_repeat (repeat (Fin 0%R) width) depth) as [L0 F0].
  rewrite repeat_length in F0.
  assert (Hn : forall i, (i < depth)%nat ->
            nth_error (rev rows) i = nth_error rows (depth - 1 - i)).
  { intros i Hi. rewrite nth_error_rev, L.
    destruct (Nat.ltb_spec i depth); [|lia]. f_equal. lia. }
  destruct rows as [|r rs]; [simpl in L; lia|].
  exists r, rs. repeat split.
  - rewrite (updates_Ok width (r :: rs) F) by (try lia; assumption).
    rewrite L0, L, Nat.sub_diag, firstn_O. now rewrite app_nil_r.
  - exact Hn.
  - rewrite Hn by lia. now replace (depth - 1 - (depth - 1))%nat with 0%nat by lia.
  - rewrite (update_Ok (length rs) width).
    + now rewrite removelast_rev_cons.
    + split; [rewrite length_rev; reflexivity | now apply Forall_rev].
    + exact Le.
Qed.

Lemma C4_update_order_witness :
  updates (repeat (repeat (Fin 0%R) 2) 3)
          [[Fin 1%R; NegInf]; [Fin 2%R; Fin 0%R]; [NegInf; Fin 3%R]]
  = Ok [[NegInf; Fin 3%R]; [Fin 2%R; Fin 0%R]; [Fin 1%R; NegInf]] /\
  update [[NegInf; Fin 3%R]; [Fin 2%R; Fin 0%R]; [Fin 1%R; NegInf]]
         [Fin 4%R; Fin 4%R]
  = Ok [[Fin 4%R; Fin 4%R]; [NegInf; Fin 3%R]; [Fin 2%R; Fin 0%R]].
Proof.
  destruct (C4_update_order 3 2
              [[Fin 1%R; NegInf]; [Fin 2%R; Fin 0%R]; [NegInf; Fin 3%R]]
              [Fin 4%R; Fin 4%R])
    as (oldest & later & E & H1 & _ & _ & H2).
  - lia.
  - reflexivity.
  - repeat constructor.
  - reflexivity.
  - injection E as <- <-. split; [exact H1 | exact H2].
Defined.

Lemma py_int_floor (q : Q) : (0 <= q)%Q -> py_int q = Qfloor q.
Proof.
  destruct q as [n d]. unfold Qle, py_int, Qfloor. simpl.
  rewrite Z.mul_1_r. intro H. apply Z.quot_div_nonneg; lia.
Qed.

Lemma step_doppler_unchanged (inp : option byte) (at_ at' : pc) (s s' : locals) :
  step inp at_ s = Ok (at', s') ->
  at_ <> L97 -> at_ <> L98 -> doppler s' = doppler s.
Proof.
  intros E N7 N8. destruct at_; cbn [step] in E; try congruence;
    try (injection E as <- <-; reflexivity).
  - destruct (cbyte s); injection E as <- <-; reflexivity.
  - destruct (frame_ready s); injection E as <- <-; reflexivity.
  - destruct (compose12 (raw8bit s)); [|discriminate E].
    cbn [bind] in E. injection E as <- <-. reflexivity.
Qed.

Lemma setup_doppler (p : params) (s0 : locals) :
  setup p = Ok s0 ->
  doppler s0 = repeat (repeat (Fin 0%R) (length (speedaxis s0)))
                      (Z.to_nat (depth_of p)).
Proof.
  intro E. destruct (setup_Ok_inv p s0 E) as [W1 D0].
  rewrite (setup_Ok p W1 D0) in E. injection E as <-. reflexivity.
Qed.

(** C5.  [setup] leaves a zero-filled buffer of
    [floor(loopduration/cpi)] rows, each [K] wide; every state the loop
    reaches, and every statement executed from it, keeps that row count
    and row width; only the two statements of the update (lines 97 and 98)
    change the buffer at all; and the update itself keeps the shape. *)
Theorem C5_dimensions (p : params) (s0 : locals) (n : nat)
    (inputs : list (option byte)) (inp : option byte)
    (st st' : pc * locals) :
  setup p = Ok s0 ->
  (0 <= loopduration p / cpi p)%Q ->
  run n inputs L87 s0 = Ok st ->
  step inp (fst st) (snd st) = Ok st' ->
  let depth := Z.to_nat (Qfloor (loopduration p / cpi p)) in
  let K := length (speedaxis s0) in
  doppler s0 = repeat (repeat (Fin 0%R) K) depth /\
  shape depth K (doppler s0) /\
  shape depth K (doppler (snd st)) /\
  shape depth K (doppler (snd st')) /\
  (fst st <> L97 -> fst st <> L98 -> doppler (snd st') = doppler (snd st)) /\
  (forall buf row buf',
     shape depth K buf -> length row = K -> update buf row = Ok buf' ->
     shape depth K buf').
Proof.
  intros E Q0 Er Es depth K.
  pose proof (setup_well_formed p s0 E) as WF.
  pose proof (setup_doppler p s0 E) as ED.
  assert (Ld : length (doppler s0) = depth).
  { rewrite ED, repeat_length. unfold depth, depth_of.
    now rewrite py_int_floor. }
  pose proof (run_invariant s0 n WF inputs L87 s0 st
                (setup_invariant p s0 E) Er) as I.
  assert (I' : invariant s0 (fst st') (snd st')).
  { destruct st' as [at' s']. eapply step_invariant; eassumption. }
  destruct I as (_ & SH & _). destruct I' as (_ & SH' & _).
  rewrite Ld in SH, SH'. fold K in SH, SH'.
  repeat split; try apply SH; try apply SH'.
  - rewrite ED at 1. unfold depth, depth_of. now rewrite py_int_floor.
  - exact Ld.
  - rewrite ED. apply Forall_forall. intros r Hr.
    apply repeat_spec in Hr. subst r. apply repeat_length.
  - destruct st' as [at' s']. intros N7 N8.
    eapply step_doppler_unchanged; eassumption.
  - eapply update_shape; eassumption.
  - eapply update_shape; eassumption.
Qed.

Lemma small_params_setup :
  (1 <= windowsize_of small_params)%Z /\ (0 <= depth_of small_params)%Z.
Proof. split; vm_compute; discriminate. Qed.

Lemma C5_dimensions_witness :
  exists (s0 : locals) (st st' : pc * locals),
    setup small_params = Ok s0 /\
    run 17 (map Some (midscale_frame 2)) L87 s0 = Ok st /\
    step None (fst st) (snd st) = Ok st' /\
    shape 2 1 (doppler (snd st)) /\
    shape 2 1 (doppler (snd st')).
Proof.
  destruct small_params_setup as [W1 D0].
  pose proof (setup_Ok small_params W1 D0) as E. cbv zeta in E.
  match type of E with _ = Ok ?s => set (s0 := s) in E end.
  pose proof (setup_well_formed _ _ E) as WF.
  assert (D1 : (1 <= length (doppler s0))%nat).
  { unfold s0. cbn [doppler]. rewrite repeat_length. vm_compute. lia. }
  destruct (run_total s0 17 WF D1 (map Some (midscale_frame 2)) L87 s0
              (setup_invariant _ _ E)) as [st Hst].
  destruct (step_total s0 (snd st) None (fst st) WF D1
              (run_invariant s0 17 WF _ _ _ _ (setup_invariant _ _ E) Hst))
    as [st' Hst'].
  assert (Q0 : (0 <= loopduration small_params / cpi small_params)%Q)
    by (vm_compute; discriminate).
  destruct (C5_dimensions small_params s0 17 _ None st st' E Q0 Hst Hst')
    as (_ & _ & S1 & S2 & _).
  exists s0, st, st'.
  exact (conj E (conj Hst (conj Hst' (conj S1 S2)))).
Defined.

Lemma step_speedaxis (inp : option byte) (at_ : pc) (s : locals) (st : pc * locals) :
  step inp at_ s = Ok st -> speedaxis (snd st) = speedaxis s.
Proof.
  intro E. destruct at_; cbn [step] in E;
    try (injection E as <-; reflexivity).
  - destruct (cbyte s); injection E as <-; reflexivity.
  - destruct (frame_ready s); injection E as <-; reflexivity.
  - destruct (compose12 (raw8bit s)); [|discriminate E].
    cbn [bind] in E. injection E as <-. reflexivity.
  - destruct (spectrum_row _ _ _); [|discriminate E]. cbn [bind] in E.
    destruct (assign_row0 _ _); [|discriminate E]. cbn [bind] in E.
    injection E as <-. reflexivity.
Qed.

Lemma run_speedaxis (n : nat) :
  forall inputs at_ s st,
    run n inputs at_ s = Ok st -> speedaxis (snd st) = speedaxis s.
Proof.
  induction n as [|n IH]; intros inputs at_ s st E.
  - injection E as <-. reflexivity.
  - cbn [run] in E. destruct (step _ at_ s) as [st1|] eqn:ES; [|discriminate E].
    cbn [bind] in E. rewrite (IH _ _ _ _ E). eapply step_speedaxis; eassumption.
Qed.

Lemma bin_speed_formula (p : params) (k : Z) :
  (1 <= windowsize_of p)%Z ->
  (bin_speed p k ==
   inject_Z k * Fs p / inject_Z (windowsize_of p) * 299000000 / 2440000000)%Q.
Proof.
  intro H. destruct (windowsize_params_nonzero p H) as [HF _].
  assert (HW : ~ (inject_Z (windowsize_of p) == 0)%Q).
  { unfold Qeq. simpl. lia. }
  unfold bin_speed, c, fc. field. split; [exact HW | exact HF].
Qed.

(** C6.  Before the crop the speed axis has one entry for every [k] below
    [windowsize/2], equal to [(k*Fs/windowsize)*c/fc] with [c = 2.99e8]
    and [fc = 2.44e9]; the axis kept is, in order, exactly the entries
    that are at most [maxspeed]; it is computed by [setup] and no
    statement of the loop changes it. *)
Theorem C6_speedaxis (p : params) (s0 : locals) (n : nat)
    (inputs : list (option byte)) (st : pc * locals) :
  setup p = Ok s0 ->
  run n inputs L87 s0 = Ok st ->
  exists axis : list Q,
    speedaxis_uncropped p = Ok axis /\
    length axis = Z.to_nat (windowsize s0 / 2) /\
    (forall k, (k < length axis)%nat ->
       exists v, nth_error axis k = Some v /\
         (v == inject_Z (Z.of_nat k) * Fs p / inject_Z (windowsize s0)
               * 299000000 / 2440000000)%Q) /\
    speedaxis s0 = filter (fun v => Qle_bool v (maxspeed p)) axis /\
    (forall v, In v (speedaxis s0) <-> In v axis /\ (v <= maxspeed p)%Q) /\
    speedaxis (snd st) = speedaxis s0.
Proof.
  intros E Er. destruct (setup_Ok_inv p s0 E) as [W1 D0].
  pose proof E as E'. rewrite (setup_Ok p W1 D0) in E'. injection E' as <-.
  cbn [windowsize speedaxis] in *.
  eexists. split; [apply (speedaxis_uncropped_Ok p W1)|].
  assert (L : length (map (fun k => bin_speed p (Z.of_nat k))
                (seq 0 (Z.to_nat (half (windowsize_of p))))) =
              Z.to_nat (windowsize_of p / 2)).
  { rewrite length_map, length_seq, half_div2 by lia. reflexivity. }
  rewrite L. split; [reflexivity|]. split; [|split; [reflexivity|split]].
  - intros k Hk. eexists. split.
    + rewrite nth_error_map, nth_error_nth' with (d := 0%nat)
        by (rewrite length_seq, half_div2; lia).
      rewrite seq_nth by (rewrite half_div2; lia). reflexivity.
    + now apply bin_speed_formula.
  - intro v. rewrite filter_In, Qle_bool_iff. reflexivity.
  - apply (run_speedaxis n _ _ _ _ Er).
Qed.

Lemma C6_speedaxis_witness :
  exists (s0 : locals) (axis : list Q),
    setup default_params = Ok s0 /\
    speedaxis_uncropped default_params = Ok axis /\
    length axis = 500%nat /\
    length (speedaxis s0) = 123%nat /\
    (exists v, nth_error axis 122 = Some v /\ (v == 36478 # 1220)%Q) /\
    (exists v, nth_error axis 123 = Some v /\ (v == 36777 # 1220)%Q).
Proof.
  assert (W1 : (1 <= windowsize_of default_params)%Z) by (vm_compute; discriminate).
  assert (D0 : (0 <= depth_of default_params)%Z) by (vm_compute; discriminate).
  pose proof (setup_Ok default_params W1 D0) as E. cbv zeta in E.
  match type of E with _ = Ok ?s => set (s0 := s) in E end.
  destruct (C6_speedaxis default_params s0 0 [] (L87, s0) E eq_refl)
    as (axis & Ea & La & Hk & Ef & _ & _).
  assert (Ew : windowsize s0 = 1000%Z) by (unfold s0; cbn [windowsize]; vm_compute; reflexivity).
  rewrite Ew in La, Hk.
  assert (L500 : length axis = 500%nat) by (rewrite La; vm_compute; reflexivity).
  exists s0, axis.
  split; [exact E|]. split; [exact Ea|]. split; [exact L500|].
  split; [|split].
  - unfold s0. cbn [speedaxis]. lazy. reflexivity.
  - destruct (Hk 122%nat) as (v & Hv & Qv); [rewrite L500; lia|].
    exists v. split; [exact Hv|]. rewrite Qv. vm_compute. reflexivity.
  - destruct (Hk 123%nat) as (v & Hv & Qv); [rewrite L500; lia|].
    exists v. split; [exact Hv|]. rewrite Qv. vm_compute. reflexivity.
Defined.

Lemma filter_filter_same {A : Type} (f : A -> bool) (l : list A) :
  filter f (filter f l) = filter f l.
Proof.
  induction l as [|x t IH]; [reflexivity|]. simpl.
  destruct (f x) eqn:E; [simpl; rewrite E; now f_equal | exact IH].
Qed.

Lemma np_mask_speed (p : params) (axis : list Q) :
  np_mask (speed_mask p axis) axis =
  Ok (filter (fun v => Qle_bool v (maxspeed p)) axis).
Proof.
  unfold np_mask, speed_mask. rewrite length_map, Nat.eqb_refl.
  now rewrite compress_filter.
Qed.

(** C7.  The crop of line 79, [speedaxis[speedaxis <= maxspeed]], applied
    to the axis of line 76 gives the axis the program keeps; applied once
    more, with the same bound, to that axis it gives it back unchanged. *)
Theorem C7_crop_idempotent (p : params) (s0 : locals) :
  setup p = Ok s0 ->
  exists axis : list Q,
    speedaxis_uncropped p = Ok axis /\
    np_mask (speed_mask p axis) axis = Ok (speedaxis s0) /\
    np_mask (speed_mask p (speedaxis s0)) (speedaxis s0) = Ok (speedaxis s0).
Proof.
  intro E. destruct (setup_Ok_inv p s0 E) as [W1 D0].
  rewrite (setup_Ok p W1 D0) in E. injection E as <-. cbn [speedaxis].
  eexists. split; [apply (speedaxis_uncropped_Ok p W1)|].
  rewrite !np_mask_speed, filter_filter_same. split; reflexivity.
Qed.

Lemma C7_crop_idempotent_witness :
  exists (s0 : locals) (axis : list Q),
    setup default_params = Ok s0 /\
    speedaxis_uncropped default_params = Ok axis /\
    np_mask (speed_mask default_params axis) axis = Ok (speedaxis s0) /\
    np_mask (speed_mask default_params (speedaxis s0)) (speedaxis s0)
      = Ok (speedaxis s0).
Proof.
  assert (W1 : (1 <= windowsize_of default_params)%Z) by (vm_compute; discriminate).
  assert (D0 : (0 <= depth_of default_params)%Z) by (vm_compute; discriminate).
  pose proof (setup_Ok default_params W1 D0) as E. cbv zeta in E.
  match type of E with _ = Ok ?s => set (s0 := s) in E end.
  destruct (C7_crop_idempotent default_params s0 E) as (axis & H1 & H2 & H3).
  exists s0, axis. exact (conj E (conj H1 (conj H2 H3))).
Defined.

(** ** Whole passes and single statements *)

Lemma run_S (n : nat) (inputs : list (option byte)) (at_ : pc) (s : locals) :
  run (S n) inputs at_ s =
  (st <- step (match at_, inputs with L87, i :: _ => i | _, _ => None end)
           at_ s ;;
   run n (match at_ with L87 => tl inputs | _ => inputs end) (fst st) (snd st)).
Proof. reflexivity. Qed.

(** Lines 87-89 are two statements. *)
Lemma run_read (n : nat) (inp : option byte) (rest : list (option byte))
    (s : locals) :
  run (S (S n)) (inp :: rest) L87 s = run n rest L90 (read_byte inp s).
Proof.
  rewrite run_S. cbn [step bind fst snd tl]. rewrite run_S.
  unfold read_byte. destruct inp; reflexivity.
Qed.

(** Line 90 when the block is not yet full. *)
Lemma run_check_no (n : nat) (rest : list (option byte)) (s : locals) :
  frame_ready s = false -> run (S n) rest L90 s = run n rest L87 s.
Proof.
  intro H. rewrite run_S. cbn [step]. rewrite H. reflexivity.
Qed.

(** Lines 90-103 when the block is full: nine statements. *)
Lemma run_process (n : nat) (rest : list (option byte)) (s : locals) :
  frame_ready s = true ->
  run (9 + n) rest L90 s = (s' <- process_frame s ;; run n rest L87 s').
Proof.
  intro H. cbn [Nat.add]. rewrite run_S. cbn [step]. rewrite H.
  cbn [bind fst snd]. rewrite run_S. cbn [step bind fst snd].
  rewrite run_S. cbn [step bind fst snd]. rewrite run_S. cbn [step].
  unfold process_frame.
  destruct (compose12 (raw8bit (set_raw8bit (map ord (rawbin s)) s)))
    as [r12|e]; [|reflexivity].
  cbn [bind fst snd]. rewrite run_S. cbn [step bind fst snd].
  rewrite run_S. cbn [step bind fst snd]. rewrite run_S. cbn [step].
  destruct (spectrum_row _ _ _) as [row|e]; [|reflexivity].
  cbn [bind]. destruct (assign_row0 _ _) as [d|e]; [|reflexivity].
  cbn [bind fst snd]. rewrite run_S. cbn [step bind fst snd].
  rewrite run_S. cbn [step bind fst snd]. reflexivity.
Qed.

Lemma iteration_run (inp : option byte) (s s' : locals) :
  iteration inp s = Ok s' <->
  run (statements inp s) [inp] L87 s = Ok (L87, s').
Proof.
  unfold iteration, statements.
  destruct (frame_ready (read_byte inp s)) eqn:FR.
  - change 11%nat with (S (S (9 + 0))). rewrite run_read, run_process by exact FR.
    destruct (process_frame (read_byte inp s)) as [s1|e]; cbn [bind run].
    + split; intro H; injection H as <-; reflexivity.
    + split; discriminate.
  - rewrite run_read, run_check_no by exact FR. cbn [run].
    split; intro H; injection H as <-; reflexivity.
Qed.

Lemma iteration_total (s0 s : locals) (inp : option byte) :
  well_formed s0 -> (1 <= length (doppler s0))%nat -> invariant s0 L87 s ->
  exists s', iteration inp s = Ok s'.
Proof.
  intros WF D1 I.
  destruct (run_total s0 (statements inp s) WF D1 [inp] L87 s I) as [st E].
  revert E. unfold iteration, statements.
  destruct (frame_ready (read_byte inp s)) eqn:FR.
  - change 11%nat with (S (S (9 + 0))). rewrite run_read, run_process by exact FR.
    destruct (process_frame (read_byte inp s)) as [s1|e]; cbn [bind run].
    + intros _. now exists s1.
    + discriminate.
  - intros _. eexists. reflexivity.
Qed.

Lemma iteration_invariant (s0 s s' : locals) (inp : option byte) :
  well_formed s0 -> invariant s0 L87 s ->
  iteration inp s = Ok s' -> invariant s0 L87 s'.
Proof.
  intros WF I E. apply iteration_run in E.
  exact (run_invariant s0 _ WF _ _ _ _ I E).
Qed.

Lemma iterations_invariant (s0 : locals) (inputs : list (option byte)) :
  well_formed s0 ->
  forall s s', invariant s0 L87 s ->
    iterations inputs s = Ok s' -> invariant s0 L87 s'.
Proof.
  intro WF. induction inputs as [|i rest IH]; intros s s' I E.
  - injection E as <-. exact I.
  - cbn [iterations] in E. destruct (iteration i s) as [s1|] eqn:E1;
      [|discriminate E]. cbn [bind] in E.
    eapply IH; [|exact E]. eapply iteration_invariant; eassumption.
Qed.

Lemma iterations_total (s0 : locals) (inputs : list (option byte)) :
  well_formed s0 -> (1 <= length (doppler s0))%nat ->
  forall s, invariant s0 L87 s -> exists s', iterations inputs s = Ok s'.
Proof.
  intros WF D1. induction inputs as [|i rest IH]; intros s I.
  - eexists. reflexivity.
  - cbn [iterations]. destruct (iteration_total s0 s i WF D1 I) as [s1 E1].
    rewrite E1. cbn [bind]. apply IH. eapply iteration_invariant; eassumption.
Qed.

Lemma py_int_pos_nonneg (q : Q) : (1 <= py_int q)%Z -> (0 <= q)%Q.
Proof.
  destruct q as [n d]. unfold py_int, Qle. simpl. rewrite Z.mul_1_r.
  intro H. destruct (Z.lt_ge_cases n 0) as [Hn|Hn]; [|exact Hn].
  exfalso.
  assert (Z.quot n (Z.pos d) <= 0)%Z; [|lia].
  replace n with (- (- n))%Z by lia. rewrite Z.quot_opp_l by discriminate.
  pose proof (Z.quot_pos (- n) (Z.pos d)). lia.
Qed.

(** C8.  At the top of the loop the accumulator holds fewer than
    [2*windowsize] bytes, with [windowsize = floor(cpi*Fs)] (1000 with the
    defaults, so 2000 bytes); a pass appends the byte read, if any; the
    test of line 90 holds exactly when the count has reached
    [2*windowsize]; and the pass leaves the accumulator empty when the
    block was processed and as appended otherwise. *)
Theorem C8_framer (p : params) (s0 s s' : locals)
    (inputs : list (option byte)) (inp : option byte) :
  setup p = Ok s0 ->
  iterations inputs s0 = Ok s ->
  iteration inp s = Ok s' ->
  let acc := rawbin s ++ match inp with Some b => [b] | None => [] end in
  windowsize s0 = Qfloor (cpi p * Fs p) /\
  windowsize_of default_params = 1000%Z /\
  windowsize s = windowsize s0 /\
  (Z.of_nat (length (rawbin s)) < 2 * windowsize s0)%Z /\
  rawbin (read_byte inp s) = acc /\
  (frame_ready (read_byte inp s) = true <->
   Z.of_nat (length acc) = (2 * windowsize s0)%Z) /\
  rawbin s' = (if frame_ready (read_byte inp s) then [] else acc).
Proof.
  intros E Ei Es acc.
  pose proof (setup_well_formed p s0 E) as WF.
  pose proof (iterations_invariant s0 inputs WF s0 s
                (setup_invariant p s0 E) Ei) as ((EW & _) & _ & _ & AL).
  cbn [at_line] in AL. rewrite EW in AL.
  assert (Eacc : rawbin (read_byte inp s) = acc).
  { unfold read_byte, acc. destruct inp; cbn [cbyte set_cbyte rawbin set_rawbin];
      [reflexivity | now rewrite app_nil_r]. }
  assert (Ew2 : windowsize (read_byte inp s) = windowsize s0).
  { unfold read_byte. destruct inp; cbn [cbyte set_cbyte windowsize set_rawbin];
      exact EW. }
  assert (Lacc : (Z.of_nat (length acc) <= 2 * windowsize s0)%Z).
  { unfold acc. rewrite length_app. destruct inp; cbn [length]; lia. }
  split; [|split; [reflexivity|split; [exact EW|split; [exact AL|split; [exact Eacc|split]]]]].
  - destruct (setup_Ok_inv p s0 E) as [W1 D0].
    pose proof E as E'. rewrite (setup_Ok p W1 D0) in E'. injection E' as <-.
    cbn [windowsize]. unfold windowsize_of. apply py_int_floor.
    now apply py_int_pos_nonneg.
  - unfold frame_ready. rewrite Eacc, Ew2.
    destruct (Z.leb_spec (2 * windowsize s0) (Z.of_nat (length acc)));
      split; intro; try lia; try discriminate; reflexivity.
  - unfold iteration in Es. destruct (frame_ready (read_byte inp s)).
    + unfold process_frame in Es.
      destruct (compose12 _); cbn [bind] in Es; [|discriminate Es].
      destruct (spectrum_row _ _ _); cbn [bind] in Es; [|discriminate Es].
      destruct (assign_row0 _ _); cbn [bind] in Es; [|discriminate Es].
      injection Es as <-. reflexivity.
    + injection Es as <-. exact Eacc.
Qed.

(** ** The small set-up, evaluated *)

Lemma small_setup : setup small_params = Ok small_start.
Proof.
  destruct small_params_setup as [W1 D0].
  rewrite (setup_Ok small_params W1 D0). reflexivity.
Qed.

Lemma small_depth : (1 <= length (doppler small_start))%nat.
Proof. simpl. lia. Qed.

Lemma midscale_compose12 :
  compose12 (map ord [x08; x00; x08; x00]) = Ok [2048; 2048]%Z.
Proof. reflexivity. Qed.

Lemma midscale_row :
  spectrum_row (np_hanning 2) [volts 2048; volts 2048] 1 = Ok [NegInf].
Proof.
  apply (spectrum_row_zero (np_hanning 2) [volts 2048; volts 2048] 1).
  - reflexivity.
  - discriminate.
  - simpl. lia.
  - repeat constructor; apply volts_midscale.
Qed.

Lemma finish_S (fuel : nat) (at_ : pc) (s : locals) :
  at_ <> L87 ->
  finish (S fuel) at_ s =
  (st <- step None at_ s ;; finish fuel (fst st) (snd st)).
Proof. destruct at_; [congruence | reflexivity ..]. Qed.

Ltac norm_state :=
  cbn [read_byte set_cbyte set_rawbin set_raw8bit set_raw12bit set_data
       set_doppler windowsize han speedaxis doppler rawbin cbyte raw8bit
       raw12bit data small_start app].

Ltac idle_pass :=
  rewrite run_read; norm_state; rewrite run_check_no by reflexivity.

Ltac one_statement :=
  rewrite run_S; cbn [step bind fst snd]; norm_state.

(** The state the two blocks lead to when Ctrl-C arrives after 37
    statements: the second block is decoded and the buffer rolled, the
    row assignment of line 98 is next. *)
Lemma run_two_frames_37 :
  run 37 two_frames L87 small_start =
  Ok (L98,
      {| windowsize := 2; han := np_hanning 2;
         speedaxis := [bin_speed small_params 0];
         doppler := [[Fin 0%R]; [NegInf]];
         rawbin := [x08; x00; x08; x00]; cbyte := Some x00;
         raw8bit := [8; 0; 8; 0]%Z; raw12bit := [2048; 2048]%Z;
         data := [volts 2048; volts 2048] |}).
Proof.
  change two_frames with
    [Some x08; Some x00; Some x08; Some x00;
     Some x08; Some x00; Some x08; Some x00].
  do 3 idle_pass.
  rewrite run_read. norm_state.
  change 26%nat with (9 + 17)%nat. rewrite run_process by reflexivity.
  unfold process_frame. norm_state.
  rewrite midscale_compose12. cbn [bind map length]. norm_state.
  rewrite midscale_row. cbn [bind np_roll1 last removelast assign_row0 length Nat.eqb].
  norm_state.
  do 3 idle_pass.
  rewrite run_read. norm_state.
  rewrite run_S. cbn [step]. 
  replace (frame_ready _) with true by reflexivity.
  cbn [bind fst snd].
  one_statement. one_statement.
  rewrite run_S. cbn [step]. norm_state.
  change (map ord [x08; x00; x08; x00]) with [8; 0; 8; 0]%Z.
  change (compose12 [8; 0; 8; 0]%Z) with (Ok [2048; 2048]%Z).
  cbn [bind fst snd]. norm_state.
  one_statement. cbn [map].
  one_statement. cbn [np_roll1 last removelast].
  reflexivity.
Qed.

Lemma C8_framer_witness :
  exists s s' : locals,
    setup small_params = Ok small_start /\
    iterations [Some x08; Some x00; Some x08] small_start = Ok s /\
    iteration (Some x00) s = Ok s' /\
    rawbin s = [x08; x00; x08] /\
    frame_ready (read_byte (Some x00) s) = true /\
    rawbin s' = [].
Proof.
  pose proof (setup_well_formed _ _ small_setup) as WF.
  pose proof (setup_invariant _ _ small_setup) as I0.
  assert (Hs : iterations [Some x08; Some x00; Some x08] small_start =
               Ok (read_byte (Some x08) (read_byte (Some x00)
                     (read_byte (Some x08) small_start)))) by reflexivity.
  destruct (iteration_total small_start _ (Some x00) WF small_depth
              (iterations_invariant small_start _ WF _ _ I0 Hs)) as [s' Hs'].
  destruct (C8_framer small_params small_start _ s' _ (Some x00)
              small_setup Hs Hs') as (_ & _ & _ & _ & _ & _ & Hr).
  eexists. exists s'.
  split; [exact small_setup|]. split; [exact Hs|]. split; [exact Hs'|].
  split; [reflexivity|]. split; [reflexivity|]. exact Hr.
Defined.

(** C9, refuted as stated.  With windows of two samples and a buffer two
    rows deep, two blocks of mid-scale samples and Ctrl-C after 37
    statements: the second block is in flight, between the roll of line 97
    and the row assignment of line 98.  [livedoppler] returns at once,
    with the rolled-around zero row at index 0 and the first block's row
    at index 1; completing the pass would have given both rows. *)
Lemma C9_counterexample :
  exists (st : pc * locals) (s' : locals),
    setup small_params = Ok small_start /\
    run 37 two_frames L87 small_start = Ok st /\
    fst st = L98 /\
    livedoppler small_params two_frames 37 = Ok [[Fin 0%R]; [NegInf]] /\
    finish 11 (fst st) (snd st) = Ok s' /\
    doppler s' = [[NegInf]; [NegInf]] /\
    doppler s' <> doppler (snd st).
Proof.
  eexists. eexists.
  split; [exact small_setup|].
  split; [exact run_two_frames_37|].
  split; [reflexivity|].
  split.
  { unfold livedoppler. rewrite small_setup. cbn [bind].
    rewrite run_two_frames_37. reflexivity. }
  cbn [fst snd].
  split.
  { rewrite finish_S by discriminate. cbn [step]. norm_state. cbn [length].
    rewrite midscale_row. cbn [bind assign_row0 length Nat.eqb fst snd].
    norm_state.
    rewrite finish_S by discriminate. cbn [step bind fst snd].
    rewrite finish_S by discriminate. cbn [step bind fst snd].
    norm_state. reflexivity. }
  split; [reflexivity|].
  cbn [doppler]. discriminate.
Qed.

(** C9, as the code has it.  Ctrl-C may arrive before any statement of
    the loop; whatever the reads and whenever it arrives, [livedoppler]
    returns the buffer as it then stands, without completing the pass
    under way.  The buffer returned has its full shape and every row of
    it is whole: the zeros of initialisation or the complete decibel row
    of one full block. *)
Theorem C9_interrupt_any_statement (p : params) (s0 : locals)
    (inputs : list (option byte)) (n : nat) :
  setup p = Ok s0 ->
  (1 <= length (doppler s0))%nat ->
  exists (st : pc * locals),
    run n inputs L87 s0 = Ok st /\
    livedoppler p inputs n = Ok (doppler (snd st)) /\
    shape (length (doppler s0)) (length (speedaxis s0)) (doppler (snd st)) /\
    Forall (whole_row s0) (doppler (snd st)).
Proof.
  intros E D1. pose proof (setup_well_formed p s0 E) as WF.
  pose proof (setup_invariant p s0 E) as I0.
  destruct (run_total s0 n WF D1 inputs L87 s0 I0) as [st Er].
  pose proof (run_invariant s0 n WF inputs L87 s0 st I0 Er) as (_ & SH & WR & _).
  exists st. split; [exact Er|]. split; [|split; assumption].
  unfold livedoppler. rewrite E. cbn [bind]. rewrite Er. reflexivity.
Qed.

Lemma C9_interrupt_any_statement_witness :
  exists (st : pc * locals),
    run 37 two_frames L87 small_start = Ok st /\
    livedoppler small_params two_frames 37 = Ok (doppler (snd st)) /\
    shape 2 1 (doppler (snd st)) /\
    Forall (whole_row small_start) (doppler (snd st)).
Proof.
  exact (C9_interrupt_any_statement small_params small_start two_frames 37
           small_setup small_depth).
Defined.


(** C10.  For a window as long as the Hann window and any [K] of at most
    half that length, the first [K] magnitudes of the full transform are
    the first [K] of the one-sided spectrum (the first [N/2] magnitudes),
    and the row the code computes by slicing [[0:K]] directly is the row
    of the pipeline that takes [N/2] bins, converts and then crops. *)
Theorem C10_direct_slice (h d : list R) (K : nat) :
  length h = length d ->
  (K <= length d / 2)%nat ->
  (forall X : list complex,
     length X = length d ->
     firstn K (map np_abs X) = firstn K (spec_one_sided X)) /\
  spectrum_row h d K = spec_transform h d K.
Proof.
  intros L HK.
  assert (H1 : forall X : list complex, length X = length d ->
            firstn K (map np_abs X) = firstn K (spec_one_sided X)).
  { intros X LX. unfold spec_one_sided.
    rewrite firstn_firstn, LX, Nat.min_l by exact HK. reflexivity. }
  split; [exact H1|].
  unfold spectrum_row, spec_transform.
  rewrite np_broadcast_same by exact L. cbn [bind]. fold (windowed h d).
  destruct (np_fft_fft (windowed h d)) as [X|e] eqn:EX; [|reflexivity].
  cbn [bind]. f_equal.
  assert (LX : length X = length d).
  { assert (Lw : length (windowed h d) = length d).
    { unfold windowed. rewrite length_map, length_combine. lia. }
    destruct (windowed h d) as [|w ws] eqn:Ew; [discriminate EX|].
    rewrite np_fft_fft_Ok in EX by discriminate.
    assert (EX' : X = map (dft_bin (w :: ws)) (seq 0 (length (w :: ws))))
      by congruence.
    rewrite EX', length_map, length_seq. exact Lw. }
  rewrite (H1 X LX), firstn_map, map_map. reflexivity.
Qed.

Lemma C10_direct_slice_witness :
  spectrum_row (np_hanning 4) [1; 0; -1; 0]%R 2
  = spec_transform (np_hanning 4) [1; 0; -1; 0]%R 2.
Proof.
  apply (C10_direct_slice (np_hanning 4) [1; 0; -1; 0]%R 2).
  - reflexivity.
  - simpl. lia.
Defined.

(** * Further properties of the code *)

(** ** Start-up *)

Lemma windowsize_zero_Fs (p : params) :
  (Fs p == 0)%Q -> windowsize_of p = 0%Z.
Proof.
  intro E. unfold windowsize_of, py_int.
  assert (H : (cpi p * Fs p == 0)%Q) by (rewrite E; apply Qmult_0_r).
  unfold Qeq in H. simpl in H. rewrite Z.mul_1_r in H.
  simpl. rewrite H. apply Z.quot_0_l. discriminate.
Qed.

Lemma setup_zero_window (p : params) :
  windowsize_of p = 0%Z -> setup p = Raise ZeroDivisionError.
Proof.
  intro W0. unfold setup, speedaxis_uncropped, py_div.
  destruct (Qeq_bool (Fs p) 0) eqn:EF; [reflexivity|]. cbn [bind].
  unfold np_fft_fftfreq, py_div. rewrite W0.
  destruct (Qeq_bool (inject_Z 0 * (1 / Fs p)) 0) eqn:E0; [reflexivity|].
  apply Qeq_bool_neq in E0. exfalso. apply E0. apply Qmult_0_l.
Qed.

Lemma setup_negative_window (p : params) :
  (windowsize_of p < 0)%Z -> setup p = Raise ValueError.
Proof.
  intro W. unfold setup, speedaxis_uncropped, py_div.
  destruct (Qeq_bool (Fs p) 0) eqn:EF.
  { apply Qeq_bool_eq, windowsize_zero_Fs in EF. lia. }
  cbn [bind]. unfold np_fft_fftfreq, py_div.
  destruct (Qeq_bool (inject_Z (windowsize_of p) * (1 / Fs p)) 0) eqn:E0.
  - exfalso. apply Qeq_bool_eq, Qmult_integral in E0. destruct E0 as [E0|E0].
    + unfold Qeq in E0. simpl in E0. lia.
    + apply Qeq_bool_neq in EF. apply EF.
      rewrite <- (Qinv_involutive (Fs p)).
      unfold Qdiv in E0. rewrite Qmult_1_l in E0. rewrite E0. reflexivity.
  - cbn [bind]. destruct (Z.ltb_spec (windowsize_of p) 0); [reflexivity | lia].
Qed.

Lemma setup_negative_depth (p : params) :
  (1 <= windowsize_of p)%Z -> (depth_of p < 0)%Z -> setup p = Raise ValueError.
Proof.
  intros W D. unfold setup.
  rewrite (speedaxis_uncropped_Ok p W). cbn [bind].
  destruct (windowsize_params_nonzero p W) as [_ HC].
  rewrite (py_div_Ok _ _ HC). cbn [bind]. fold (depth_of p).
  unfold np_zeros. destruct (Z.ltb_spec (depth_of p) 0); [reflexivity | lia].
Qed.

(** X1.  What [setup] does with any parameters.  It succeeds exactly when
    [int(cpi*Fs)] is at least 1 and [int(loopduration/cpi)] is not
    negative; it raises [ZeroDivisionError] exactly when [int(cpi*Fs)] is
    0 (which includes [Fs = 0]), [ValueError] exactly when [int(cpi*Fs)]
    is negative or the number of rows is, and never [IndexError]. *)
Theorem X1_setup_outcome (p : params) :
  ((exists s0, setup p = Ok s0) <->
   (1 <= windowsize_of p)%Z /\ (0 <= depth_of p)%Z) /\
  (setup p = Raise ZeroDivisionError <-> windowsize_of p = 0%Z) /\
  (setup p = Raise ValueError <->
   (windowsize_of p < 0)%Z \/
   ((1 <= windowsize_of p)%Z /\ (depth_of p < 0)%Z)) /\
  setup p <> Raise IndexError.
Proof.
  destruct (Z.lt_trichotomy (windowsize_of p) 0) as [W|[W|W]].
  - pose proof (setup_negative_window p W) as E. rewrite E.
    split; [|split; [|split]]; try discriminate.
    + split; [intros [s0 H]; discriminate H | lia].
    + split; [discriminate | lia].
    + split; [intros _; now left | reflexivity].
  - pose proof (setup_zero_window p W) as E. rewrite E.
    split; [|split; [|split]]; try discriminate.
    + split; [intros [s0 H]; discriminate H | lia].
    + split; [intros _; exact W | reflexivity].
    + split; [discriminate | lia].
  - destruct (Z.lt_ge_cases (depth_of p) 0) as [D|D].
    + assert (W1 : (1 <= windowsize_of p)%Z) by lia.
      pose proof (setup_negative_depth p W1 D) as E. rewrite E.
      split; [|split; [|split]]; try discriminate.
      * split; [intros [s0 H]; discriminate H | lia].
      * split; [discriminate | lia].
      * split; [intros _; right; now split | reflexivity].
    + assert (W1 : (1 <= windowsize_of p)%Z) by lia.
      pose proof (setup_Ok p W1 D) as E. cbv zeta in E. rewrite E.
      split; [|split; [|split]]; try discriminate.
      * split; [intros _; now split | intros _; eexists; reflexivity].
      * split; [discriminate | lia].
      * split; [discriminate | lia].
Qed.

(** ** The waterfall buffer, any number of updates *)

(** X2.  After any number of updates a buffer that is not empty holds, in
    its fixed number of rows, the most recent rows newest first, followed
    by as many of its earlier rows as still fit. *)
Theorem X2_updates_recent (width : nat) (rows buf : list (list xreal)) :
  (1 <= length buf)%nat ->
  Forall (fun r => length r = width) buf ->
  Forall (fun r => length r = width) rows ->
  updates buf rows = Ok (firstn (length buf) (rev rows ++ buf)).
Proof.
  intros L F FR. revert buf L F.
  induction FR as [|r rs Hr _ IH]; intros buf L F.
  - cbn [updates rev app]. now rewrite firstn_all.
  - destruct (length buf) as [|n] eqn:Eb; [lia|].
    cbn [updates]. rewrite (update_Ok n width) by (try split; assumption).
    cbn [bind].
    assert (Lb : length (r :: removelast buf) = S n).
    { cbn [length]. rewrite removelast_length, Eb. reflexivity. }
    rewrite IH.
    + rewrite Lb. f_equal. cbn [rev]. rewrite <- app_assoc. cbn [app].
      rewrite !firstn_app. f_equal.
      rewrite length_rev.
      destruct (S n - length rs)%nat as [|m] eqn:Em; [reflexivity|].
      cbn [firstn]. f_equal. apply firstn_removelast. lia.
    + rewrite Lb. lia.
    + constructor; [exact Hr | now apply Forall_removelast].
Qed.

Lemma X2_updates_recent_witness :
  updates [[Fin 0%R]; [Fin 0%R]] [[Fin 1%R]; [Fin 2%R]; [NegInf]]
  = Ok [[NegInf]; [Fin 2%R]].
Proof.
  apply (X2_updates_recent 1 [[Fin 1%R]; [Fin 2%R]; [NegInf]]
           [[Fin 0%R]; [Fin 0%R]]).
  - simpl. lia.
  - repeat constructor.
  - repeat constructor.
Defined.

(** ** The transform and the number of bins kept *)

(** X3.  Keeping fewer bins only shortens the row: the row for [K] bins
    is the first [K] entries of the row for any larger number of bins. *)
Theorem X3_fewer_bins_prefix (h d : list R) (K K' : nat) (row' : list xreal) :
  (K <= K')%nat ->
  spectrum_row h d K' = Ok row' ->
  spectrum_row h d K = Ok (firstn K row').
Proof.
  intros HK. unfold spectrum_row.
  destruct (np_broadcast Rmult h d) as [hd|e]; [|discriminate]. cbn [bind].
  destruct (np_fft_fft hd) as [X|e]; [|discriminate]. cbn [bind].
  intro E. injection E as <-. f_equal.
  rewrite <- !firstn_map, firstn_firstn, Nat.min_l by exact HK. reflexivity.
Qed.

Lemma X3_fewer_bins_prefix_witness :
  exists row' : list xreal,
    spectrum_row (np_hanning 4) [1; 0; -1; 0]%R 2 = Ok row' /\
    spectrum_row (np_hanning 4) [1; 0; -1; 0]%R 1 = Ok (firstn 1 row').
Proof.
  eexists. split.
  - apply spectrum_row_Ok; [reflexivity | discriminate].
  - apply (X3_fewer_bins_prefix (np_hanning 4) [1; 0; -1; 0]%R 1 2).
    + lia.
    + apply spectrum_row_Ok; [reflexivity | discriminate].
Defined.

(** ** The decoder on any bytes *)

Lemma ord_inj (a b : byte) : ord a = ord b -> a = b.
Proof.
  unfold ord. intro H. apply N2Z.inj in H.
  pose proof (Byte.of_to_N a) as Ha. rewrite H, Byte.of_to_N in Ha.
  congruence.
Qed.

Lemma volts_inj (x y : Z) : volts x = volts y -> x = y.
Proof.
  unfold volts. change (2 ^ 12)%Z with 4096%Z. intro H.
  apply eq_IZR. lra.
Qed.

(** X4.  The decoder loses nothing: two even-length blocks that decode to
    the same samples are the same bytes. *)
Theorem X4_decode_injective (a b : list byte) (d : list R) :
  Nat.even (length a) = true -> Nat.even (length b) = true ->
  decode a = Ok d -> decode b = Ok d -> a = b.
Proof.
  revert b d.
  induction a as [|x|x y t IH] using list_pair_ind; intros b d Ea Eb Da Db.
  - destruct (decode_Ok [] Ea) as (d0 & E0 & L0). rewrite Da in E0.
    injection E0 as <-. destruct (decode_Ok b Eb) as (d1 & E1 & L1).
    rewrite Db in E1. injection E1 as <-.
    destruct b as [|b1 [|b2 b']]; [reflexivity | discriminate Eb |].
    rewrite half_length_SS in L1. rewrite L1 in L0. discriminate L0.
  - discriminate Ea.
  - assert (Et : Nat.even (length t) = true) by exact Ea.
    destruct (decode_Ok t Et) as (dt & Dt & _).
    rewrite (decode_cons2 x y t dt Et Dt) in Da.
    assert (Ed : d = volts (256 * ord x + ord y) :: dt) by congruence.
    subst d. clear Da.
    destruct b as [|x' [|y' t']].
    + discriminate Db.
    + discriminate Eb.
    + assert (Et' : Nat.even (length t') = true) by exact Eb.
      destruct (decode_Ok t' Et') as (dt' & Dt' & _).
      rewrite (decode_cons2 x' y' t' dt' Et' Dt') in Db.
      assert (Hv : volts (256 * ord x' + ord y') = volts (256 * ord x + ord y))
        by congruence.
      assert (Hd : dt' = dt) by congruence.
      apply volts_inj in Hv.
      pose proof (ord_range x). pose proof (ord_range y).
      pose proof (ord_range x'). pose proof (ord_range y').
      assert (ord x' = ord x) by lia. assert (ord y' = ord y) by lia.
      rewrite (ord_inj x' x), (ord_inj y' y) by assumption.
      do 2 f_equal. apply (IH t' dt Et Et' Dt). now rewrite Hd in Dt'.
Qed.

Lemma X4_decode_injective_witness :
  decode [x08; x00; x0f; xff] = Ok [volts 2048; volts 4095] /\
  [x08; x00; x0f; xff] = [x08; x00; x0f; xff].
Proof.
  split; [reflexivity|].
  exact (X4_decode_injective [x08; x00; x0f; xff] [x08; x00; x0f; xff]
           [volts 2048; volts 4095] eq_refl eq_refl eq_refl eq_refl).
Defined.

(** X5.  The decoder does not mask to 12 bits.  A pair of bytes always
    gives a voltage from -1.65 up to [65535*3.3/4096 - 1.65]; it is below
    1.65 exactly when the high byte is below 16. *)
Theorem X5_decode_unmasked (hi lo : byte) :
  let v := volts (256 * ord hi + ord lo) in
  decode [hi; lo] = Ok [v] /\
  (-1.65 <= v <= 65535 * 3.3 / 4096 - 1.65)%R /\
  ((v < 1.65)%R <-> (ord hi < 16)%Z).
Proof.
  intro v. split; [reflexivity|].
  pose proof (ord_range hi) as Hh. pose proof (ord_range lo) as Hl.
  unfold v, volts. change (2 ^ 12)%Z with 4096%Z.
  assert (B : (0 <= 256 * ord hi + ord lo <= 65535)%Z) by lia.
  assert (BR : (0 <= IZR (256 * ord hi + ord lo) <= 65535)%R)
    by (split; apply IZR_le; lia).
  split; [lra|]. split; intro H.
  - assert (L : (IZR (256 * ord hi + ord lo) < 4096)%R) by lra.
    apply lt_IZR in L. lia.
  - assert (L : (IZR (256 * ord hi + ord lo) <= 4095)%R) by (apply IZR_le; lia).
    lra.
Qed.

Lemma py_evens_odds_length_any {A : Type} (l : list A) :
  length (py_evens l) = ((length l + 1) / 2)%nat /\
  length (py_odds l) = (length l / 2)%nat.
Proof.
  induction l as [|x|x y t [E O]] using list_pair_ind.
  - split; reflexivity.
  - split; reflexivity.
  - rewrite py_evens_cons2, py_odds_cons2, half_length_SS.
    assert (H : ((length (x :: y :: t) + 1) / 2 = S ((length t + 1) / 2))%nat).
    { cbn [length].
      replace (S (S (length t)) + 1)%nat with ((length t + 1) + 1 * 2)%nat by lia.
      rewrite Nat.div_add by lia. lia. }
    rewrite H. cbn [length]. now rewrite E, O.
Qed.

(** X6.  Lines 93-95 on a block with an odd number of bytes: five bytes
    or more raise [ValueError] (the arrays of high and of low bytes cannot
    be broadcast); three bytes pass, the single low byte serving both
    high bytes; one byte gives no sample at all. *)
Theorem X6_decode_odd (raw : list byte) :
  Nat.odd (length raw) = true ->
  (5 <= length raw)%nat ->
  decode raw = Raise ValueError /\
  (forall a b c : byte,
     decode [a; b; c] =
     Ok [volts (256 * ord a + ord b); volts (256 * ord c + ord b)]) /\
  (forall a : byte, decode [a] = Ok []).
Proof.
  intros Ho H5. split; [|split; reflexivity].
  unfold decode, compose12.
  destruct (py_evens_odds_length_any (map ord raw)) as [E O].
  rewrite length_map in E, O.
  assert (Hn : exists k, length raw = (2 * k + 1)%nat).
  { apply Nat.odd_spec in Ho. destruct Ho as [k Hk]. exists k. lia. }
  destruct Hn as [k Hk].
  assert (E' : length (py_evens (map ord raw)) = (k + 1)%nat).
  { rewrite E, Hk. replace (2 * k + 1 + 1)%nat with ((k + 1) * 2)%nat by lia.
    apply Nat.div_mul. lia. }
  assert (O' : length (py_odds (map ord raw)) = k).
  { rewrite O, Hk. replace (2 * k + 1)%nat with (1 + k * 2)%nat by lia.
    rewrite Nat.div_add, Nat.div_small by lia. reflexivity. }
  clear E O. unfold np_broadcast. rewrite E', O'.
  destruct (Nat.eqb_spec (k + 1) k) as [Q|_]; [lia|].
  destruct (py_evens (map ord raw)) as [|e1 [|e2 et]];
    [simpl in E'; lia | simpl in E'; lia |].
  destruct (py_odds (map ord raw)) as [|o1 [|o2 ot]];
    [simpl in O'; lia | simpl in O'; lia |].
  reflexivity.
Qed.

Lemma X6_decode_odd_witness :
  decode [x01; x02; x03; x04; x05] = Raise ValueError.
Proof.
  apply (X6_decode_odd [x01; x02; x03; x04; x05]).
  - reflexivity.
  - simpl. lia.
Defined.

(** ** Blocks through the loop *)

Lemma feed_snoc (bs : list byte) (b : byte) (s : locals) :
  feed (bs ++ [b]) s = read_byte (Some b) (feed bs s).
Proof. unfold feed. now rewrite fold_left_app. Qed.

Lemma feed_fields (bs : list byte) (s : locals) :
  rawbin (feed bs s) = rawbin s ++ bs /\
  windowsize (feed bs s) = windowsize s /\
  han (feed bs s) = han s /\
  speedaxis (feed bs s) = speedaxis s /\
  doppler (feed bs s) = doppler s.
Proof.
  induction bs as [|b bs IH] using rev_ind.
  - cbn. now rewrite app_nil_r.
  - rewrite feed_snoc. destruct IH as (R & W & H & A & D).
    unfold read_byte. simpl_locals.
    rewrite R, W, H, A, D, app_assoc. now repeat split.
Qed.

Lemma iterations_app (a b : list (option byte)) (s : locals) :
  iterations (a ++ b) s = (s' <- iterations a s ;; iterations b s').
Proof.
  revert s. induction a as [|i a IH]; intro s; [reflexivity|].
  cbn [app iterations]. destruct (iteration i s); [apply IH | reflexivity].
Qed.

(** Bytes that do not fill the block are only appended. *)
Lemma iterations_fill (bs : list byte) (s : locals) :
  (Z.of_nat (length (rawbin s) + length bs) < 2 * windowsize s)%Z ->
  iterations (map Some bs) s = Ok (feed bs s).
Proof.
  revert s. induction bs as [|b bs IH]; intros s H; [reflexivity|].
  cbn [map iterations]. unfold iteration.
  assert (FR : frame_ready (read_byte (Some b) s) = false).
  { unfold frame_ready, read_byte. simpl_locals. rewrite length_app.
    cbn [length] in *. apply Z.leb_gt. lia. }
  rewrite FR. cbn [bind]. rewrite IH; [reflexivity|].
  unfold read_byte. simpl_locals. rewrite length_app. cbn [length] in *.
  clear - H. lia.
Qed.

(** The byte that fills the block starts its processing. *)
Lemma iterations_frame (frame : list byte) (s : locals) :
  rawbin s = [] ->
  (1 <= windowsize s)%Z ->
  Z.of_nat (length frame) = (2 * windowsize s)%Z ->
  iterations (map Some frame) s = process_frame (feed frame s).
Proof.
  intros R W L.
  destruct frame as [|b0 t] using rev_ind; [cbn [length] in L; lia|].
  clear IHt. rewrite length_app in L. cbn [length] in L.
  rewrite map_app, iterations_app, iterations_fill
    by (rewrite R; cbn [length]; lia).
  cbn [bind map iterations]. unfold iteration. rewrite <- feed_snoc.
  assert (FR : frame_ready (feed (t ++ [b0]) s) = true).
  { unfold frame_ready. destruct (feed_fields (t ++ [b0]) s) as (Rf & Wf & _).
    rewrite Rf, Wf, R. cbn [app]. rewrite length_app. cbn [length].
    apply Z.leb_le. lia. }
  rewrite FR. destruct (process_frame _); reflexivity.
Qed.

Lemma row_of_frame_same (s0 s : locals) (frame : list byte) :
  same_frame s0 s -> row_of_frame s frame = row_of_frame s0 frame.
Proof.
  intros (_ & H & A). unfold row_of_frame. now rewrite H, A.
Qed.

Lemma row_of_frame_Ok (s0 : locals) (frame : list byte) :
  well_formed s0 ->
  Z.of_nat (length frame) = (2 * windowsize s0)%Z ->
  exists row, row_of_frame s0 frame = Ok row /\
              length row = length (speedaxis s0).
Proof.
  intros (HW & HH & HK & _) L.
  destruct (even_double _ _ L) as [He Hh].
  destruct (decode_Ok frame He) as (d & Ed & Ld).
  unfold row_of_frame. rewrite Ed. cbn [bind].
  assert (L1 : length (han s0) = length d) by lia.
  assert (N : d <> []).
  { intro Z0. rewrite Z0, Hh in Ld. cbn [length] in Ld. lia. }
  rewrite spectrum_row_Ok by assumption.
  eexists. split; [reflexivity|]. rewrite length_map, length_seq. lia.
Qed.

(** X7.  A whole block is one update.  From the top of the loop with an
    empty accumulator, the reads of exactly [2*windowsize] bytes process
    one block: the buffer is updated once, with the decibel row of those
    bytes alone, and the accumulator is empty again. *)
Theorem X7_block_is_update (p : params) (s0 s : locals)
    (before : list (option byte)) (frame : list byte) :
  setup p = Ok s0 ->
  (1 <= length (doppler s0))%nat ->
  iterations before s0 = Ok s ->
  rawbin s = [] ->
  Z.of_nat (length frame) = (2 * windowsize s0)%Z ->
  exists (s' : locals) (row : list xreal),
    iterations (map Some frame) s = Ok s' /\
    row_of_frame s0 frame = Ok row /\
    update (doppler s) row = Ok (doppler s') /\
    doppler s' = row :: removelast (doppler s) /\
    rawbin s' = [].
Proof.
  intros E D1 Eb R L.
  pose proof (setup_well_formed p s0 E) as WF.
  pose proof (iterations_invariant s0 before WF s0 s
                (setup_invariant p s0 E) Eb) as I.
  pose proof I as (SF & SH & _ & _). pose proof SF as (EW & _).
  pose proof WF as (HW & _).
  destruct (iterations_total s0 (map Some frame) WF D1 s I) as [s' Es'].
  pose proof Es' as Ep.
  rewrite iterations_frame in Ep by (rewrite ?EW; assumption).
  destruct (process_frame_update _ _ Ep) as (row & Er & Eu & Rs').
  destruct (feed_fields frame s) as (Rf & Wf & Hf & Af & Df).
  rewrite Rf, R in Er. cbn [app] in Er. rewrite Df in Eu.
  assert (SF' : same_frame s0 (feed frame s)).
  { destruct SF as (A1 & A2 & A3). unfold same_frame. rewrite Wf, Hf, Af.
    now repeat split. }
  rewrite (row_of_frame_same s0 _ frame SF') in Er.
  exists s', row. repeat split; try assumption.
  destruct (row_of_frame_Ok s0 frame WF L) as (row' & Er' & Lr).
  assert (row' = row) by congruence. subst row'.
  destruct (length (doppler s0)) as [|n] eqn:En; [lia|].
  rewrite (update_Ok n (length (speedaxis s0))) in Eu by assumption.
  congruence.
Qed.

Lemma X7_block_is_update_witness :
  exists (s' : locals) (row : list xreal),
    iterations (map Some (midscale_frame 2)) small_start = Ok s' /\
    row_of_frame small_start (midscale_frame 2) = Ok row /\
    update (doppler small_start) row = Ok (doppler s') /\
    doppler s' = row :: removelast (doppler small_start) /\
    rawbin s' = [].
Proof.
  exact (X7_block_is_update small_params small_start small_start []
           (midscale_frame 2) small_setup small_depth eq_refl eq_refl eq_refl).
Defined.

(** Whole passes as statements: the reads [inputs] are consumed by some
    number of statements that ends at the top of the loop, or raises as
    the passes do. *)
Lemma iterations_run (inputs : list (option byte)) :
  forall s, exists n, forall rest,
    run n (inputs ++ rest) L87 s =
    (s' <- iterations inputs s ;; Ok (L87, s')).
Proof.
  induction inputs as [|i inputs IH]; intro s.
  - exists 0%nat. reflexivity.
  - cbn [iterations app]. unfold iteration.
    destruct (frame_ready (read_byte i s)) eqn:FR.
    + destruct (process_frame (read_byte i s)) as [s1|e] eqn:EP.
      * destruct (IH s1) as [n Hn]. exists (S (S (9 + n))). intro rest.
        rewrite run_read, run_process, EP by exact FR. cbn [bind]. apply Hn.
      * exists (S (S (9 + 0))). intro rest.
        rewrite run_read, run_process, EP by exact FR. reflexivity.
    + destruct (IH (read_byte i s)) as [n Hn]. exists (S (S (S n))).
      intro rest. rewrite run_read, run_check_no by exact FR. cbn [bind].
      apply Hn.
Qed.

Lemma setup_empty_buffer (p : params) (s0 : locals) :
  setup p = Ok s0 -> depth_of p = 0%Z -> doppler s0 = [].
Proof.
  intros E D. rewrite (setup_doppler p s0 E), D. reflexivity.
Qed.

(** X8.  With [loopduration] below [cpi] the buffer has no row: [setup]
    succeeds, but the first full block raises [IndexError] at the row
    assignment of line 98, so [livedoppler] raises instead of returning. *)
Theorem X8_no_row_raises (p : params) (s0 : locals) (frame : list byte) :
  setup p = Ok s0 ->
  depth_of p = 0%Z ->
  Z.of_nat (length frame) = (2 * windowsize s0)%Z ->
  iterations (map Some frame) s0 = Raise IndexError /\
  exists n, livedoppler p (map Some frame) n = Raise IndexError.
Proof.
  intros E D L.
  pose proof (setup_well_formed p s0 E) as WF.
  pose proof WF as (HW & HH & HK & HR & _).
  assert (EI : iterations (map Some frame) s0 = Raise IndexError).
  { rewrite iterations_frame by assumption.
    destruct (feed_fields frame s0) as (Rf & Wf & Hf & Af & Df).
    rewrite HR in Rf. cbn [app] in Rf.
    destruct (row_of_frame_Ok s0 frame WF L) as (row & Er & _).
    unfold row_of_frame, decode in Er.
    unfold process_frame. simpl_locals. rewrite Rf.
    destruct (compose12 (map ord frame)) as [r12|]; [|discriminate Er].
    cbn [bind] in Er |- *. simpl_locals. rewrite Hf, Af, Er. cbn [bind].
    rewrite Df, (setup_empty_buffer p s0 E D). reflexivity. }
  split; [exact EI|].
  destruct (iterations_run (map Some frame) s0) as [n Hn].
  exists n. unfold livedoppler. rewrite E. cbn [bind].
  specialize (Hn []). rewrite app_nil_r in Hn. rewrite Hn, EI. reflexivity.
Qed.

Lemma X8_no_row_raises_witness :
  iterations (map Some (midscale_frame 2))
    {| windowsize := 2; han := np_hanning 2;
       speedaxis := [bin_speed shallow_params 0];
       doppler := [];
       rawbin := []; cbyte := None;
       raw8bit := []; raw12bit := []; data := [] |}
  = Raise IndexError /\
  exists n, livedoppler shallow_params (map Some (midscale_frame 2)) n
            = Raise IndexError.
Proof.
  assert (W1 : (1 <= windowsize_of shallow_params)%Z) by (vm_compute; discriminate).
  assert (D0 : (0 <= depth_of shallow_params)%Z) by (vm_compute; discriminate).
  apply (X8_no_row_raises shallow_params _ (midscale_frame 2)).
  - rewrite (setup_Ok shallow_params W1 D0). reflexivity.
  - reflexivity.
  - reflexivity.
Defined.

(** Blocks one after the other are as many updates. *)
Lemma iterations_frames (s0 : locals) (frames : list (list byte)) :
  well_formed s0 -> (1 <= length (doppler s0))%nat ->
  Forall (fun f => Z.of_nat (length f) = (2 * windowsize s0)%Z) frames ->
  forall s, invariant s0 L87 s -> rawbin s = [] ->
  exists (s' : locals) (rows : list (list xreal)),
    iterations (map Some (concat frames)) s = Ok s' /\
    Forall2 (fun f r => row_of_frame s0 f = Ok r) frames rows /\
    updates (doppler s) rows = Ok (doppler s') /\
    invariant s0 L87 s' /\
    rawbin s' = [].
Proof.
  intros WF D1 FF. induction FF as [|f fs Hf _ IH]; intros s I R.
  - exists s, []. cbn [concat map iterations updates].
    split; [reflexivity|]. split; [constructor|].
    split; [reflexivity|]. split; assumption.
  - pose proof I as (SF & SH & _ & _). pose proof SF as (EW & _).
    pose proof WF as (HW & _).
    destruct (iterations_total s0 (map Some f) WF D1 s I) as [s1 E1].
    pose proof (iterations_invariant s0 _ WF s s1 I E1) as I1.
    pose proof E1 as Ep.
    rewrite iterations_frame in Ep by (rewrite ?EW; assumption).
    destruct (process_frame_update _ _ Ep) as (row & Er & Eu & R1).
    destruct (feed_fields f s) as (Rf & Wf & Hf' & Af & Df).
    rewrite Rf, R in Er. cbn [app] in Er. rewrite Df in Eu.
    assert (SF' : same_frame s0 (feed f s)).
    { destruct SF as (A1 & A2 & A3). unfold same_frame.
      rewrite Wf, Hf', Af. now repeat split. }
    rewrite (row_of_frame_same s0 _ f SF') in Er.
    destruct (IH s1 I1 R1) as (s' & rows & E' & F2 & Eus & I' & R').
    exists s', (row :: rows). split; [|split; [|split; [|split]]].
    + cbn [concat]. rewrite map_app, iterations_app, E1. exact E'.
    + constructor; assumption.
    + cbn [updates]. rewrite Eu. exact Eus.
    + exact I'.
    + exact R'.
Qed.

Lemma Forall2_row_width (s0 : locals) (frames : list (list byte))
    (rows : list (list xreal)) :
  well_formed s0 ->
  Forall (fun f => Z.of_nat (length f) = (2 * windowsize s0)%Z) frames ->
  Forall2 (fun f r => row_of_frame s0 f = Ok r) frames rows ->
  Forall (fun r => length r = length (speedaxis s0)) rows.
Proof.
  intros WF FF F2. induction F2 as [|f r fs rs Hr _ IH]; [constructor|].
  inversion FF as [|? ? Hf FF']; subst. constructor; [|now apply IH].
  destruct (row_of_frame_Ok s0 f WF Hf) as (r' & Er' & Lr). congruence.
Qed.


(** ** Reads that do not fill a block *)

Lemma quiet_run (d0 : list (list xreal)) (n : nat) :
  forall inputs at_ s,
    quiet d0 inputs at_ s ->
    exists st, run n inputs at_ s = Ok st /\ doppler (snd st) = d0.
Proof.
  induction n as [|n IH]; intros inputs at_ s [D Q].
  - eexists. split; [reflexivity | exact D].
  - rewrite run_S. destruct at_; try contradiction; cbn [step].
    + (* line 87 *)
      cbn [bind fst snd]. apply IH. split; [exact D|]. simpl_locals.
      destruct inputs as [|i rest]; cbn [tl]; exact Q.
    + (* line 88 *)
      destruct (cbyte s) as [b|] eqn:Ec; cbn [bind fst snd]; apply IH;
        (split; [exact D|]); simpl_locals; cbn [bytes_of length] in Q.
      * rewrite length_app. cbn [length]. lia.
      * exact Q.
    + (* line 90 *)
      assert (FR : frame_ready s = false).
      { unfold frame_ready. apply Z.leb_gt. lia. }
      rewrite FR. cbn [bind fst snd]. apply IH. split; assumption.
Qed.

(** X10.  Until [2*windowsize] bytes have been read nothing is
    processed: if the reads deliver fewer bytes than that, [livedoppler]
    returns the zero-filled buffer of [setup], whenever it is
    interrupted. *)
Theorem X10_too_few_bytes (p : params) (s0 : locals)
    (inputs : list (option byte)) (n : nat) :
  setup p = Ok s0 ->
  (Z.of_nat (length (bytes_of inputs)) < 2 * windowsize s0)%Z ->
  livedoppler p inputs n = Ok (doppler s0) /\
  doppler s0 = repeat (repeat (Fin 0%R) (length (speedaxis s0)))
                      (length (doppler s0)).
Proof.
  intros E H. pose proof (setup_well_formed p s0 E) as (_ & _ & _ & HR & HD).
  split; [|exact HD].
  destruct (quiet_run (doppler s0) n inputs L87 s0) as (st & Er & Ed).
  { split; [reflexivity|]. rewrite HR. cbn [length Nat.add]. exact H. }
  unfold livedoppler. rewrite E. cbn [bind]. rewrite Er. cbn [bind].
  now rewrite Ed.
Qed.

Lemma X10_too_few_bytes_witness :
  livedoppler small_params [Some x08; None; Some x00; None; Some x08] 100
  = Ok [[Fin 0%R]; [Fin 0%R]].
Proof.
  apply (X10_too_few_bytes small_params small_start
           [Some x08; None; Some x00; None; Some x08] 100 small_setup).
  cbn. lia.
Defined.

(** ** Reads that return nothing *)

Lemma iterations_forget (inputs : list (option byte)) (c0 : option byte)
    (s : locals) :
  (s' <- iterations inputs (set_cbyte c0 s) ;; Ok (forget_cbyte s')) =
  (s' <- iterations inputs s ;; Ok (forget_cbyte s')).
Proof. destruct inputs; reflexivity. Qed.

Lemma iteration_nothing (s : locals) :
  frame_ready s = false -> iteration None s = Ok (set_cbyte None s).
Proof.
  intro FR. unfold iteration.
  change (frame_ready (read_byte None s)) with (frame_ready s).
  rewrite FR. reflexivity.
Qed.

Lemma iterations_bytes_of (s0 : locals) (inputs : list (option byte)) :
  well_formed s0 ->
  forall s, invariant s0 L87 s ->
    (s' <- iterations inputs s ;; Ok (forget_cbyte s')) =
    (s' <- iterations (map Some (bytes_of inputs)) s ;; Ok (forget_cbyte s')).
Proof.
  intro WF. induction inputs as [|[b|] rest IH]; intros s I.
  - reflexivity.
  - cbn [bytes_of map iterations].
    destruct (iteration (Some b) s) as [s1|e] eqn:E1; [|reflexivity].
    cbn [bind]. apply IH. eapply iteration_invariant; eassumption.
  - cbn [bytes_of iterations].
    assert (FR : frame_ready s = false).
    { destruct I as ((EW & _) & _ & _ & AL). cbn [at_line] in AL.
      unfold frame_ready. apply Z.leb_gt. exact AL. }
    rewrite (iteration_nothing s FR). cbn [bind].
    rewrite iterations_forget. now apply IH.
Qed.

Lemma Ok_inj {A : Type} (a b : A) : Ok a = Ok b -> a = b.
Proof. intro H. now injection H. Qed.

(** X11.  Reads that return nothing change nothing but the variable
    [cbyte]: the passes over any reads end in the same locals, [cbyte]
    apart, as the passes over just the bytes those reads deliver; in
    particular in the same buffer and the same accumulator. *)
Theorem X11_empty_reads_ignored (p : params) (s0 s1 : locals)
    (inputs : list (option byte)) :
  setup p = Ok s0 ->
  iterations inputs s0 = Ok s1 ->
  exists s2 : locals,
    iterations (map Some (bytes_of inputs)) s0 = Ok s2 /\
    forget_cbyte s2 = forget_cbyte s1 /\
    doppler s2 = doppler s1 /\
    rawbin s2 = rawbin s1.
Proof.
  intros E E1.
  pose proof (iterations_bytes_of s0 inputs (setup_well_formed p s0 E) s0
                (setup_invariant p s0 E)) as H.
  rewrite E1 in H. cbn [bind] in H.
  destruct (iterations (map Some (bytes_of inputs)) s0) as [s2|e];
    [|discriminate H].
  cbn [bind] in H. apply Ok_inj in H. exists s2.
  split; [reflexivity|]. split; [now rewrite H|].
  split.
  - change (doppler (forget_cbyte s2) = doppler (forget_cbyte s1)).
    now rewrite H.
  - change (rawbin (forget_cbyte s2) = rawbin (forget_cbyte s1)).
    now rewrite H.
Qed.

Lemma X11_empty_reads_ignored_witness :
  exists s2 : locals,
    iterations (map Some (bytes_of [None; Some x08; None; None; Some x00]))
      small_start = Ok s2 /\
    rawbin s2 = [x08; x00].
Proof.
  destruct (X11_empty_reads_ignored small_params small_start
              (read_byte (Some x00) (read_byte None (read_byte None
                 (read_byte (Some x08) (read_byte None small_start)))))
              [None; Some x08; None; None; Some x00] small_setup eq_refl)
    as (s2 & E2 & _ & _ & R2).
  exists s2. split; [exact E2 | exact R2].
Defined.

(** ** The speed axis and the bins of a row *)

Lemma filter_none {A : Type} (q : A -> bool) (l : list A) :
  (forall x, In x l -> q x = false) -> filter q l = [].
Proof.
  induction l as [|x t IH]; intro H; [reflexivity|]. cbn [filter].
  rewrite (H x) by now left. apply IH. intros y Hy. apply H. now right.
Qed.

Lemma filter_seq_prefix (q : nat -> bool) (n : nat) :
  (forall i j, (i <= j)%nat -> q j = true -> q i = true) ->
  forall a, filter q (seq a n) = seq a (length (filter q (seq a n))).
Proof.
  intro H. induction n as [|n IH]; intro a; [reflexivity|].
  cbn [seq filter]. destruct (q a) eqn:Ea.
  - cbn [length seq]. f_equal. apply IH.
  - assert (E : filter q (seq (S a) n) = []).
    { apply filter_none. intros x Hx. apply in_seq in Hx.
      destruct (q x) eqn:Ex; [|reflexivity].
      rewrite (H a x) in Ea by (try lia; exact Ex). discriminate. }
    rewrite E. reflexivity.
Qed.

Lemma filter_map_comp {A B : Type} (f : A -> B) (q : B -> bool) (l : list A) :
  filter q (map f l) = map f (filter (fun x => q (f x)) l).
Proof.
  induction l as [|x t IH]; [reflexivity|]. cbn [map filter].
  destruct (q (f x)); cbn [map]; now rewrite IH.
Qed.

Lemma inject_Z_lt (a b : Z) : (a < b)%Z -> (inject_Z a < inject_Z b)%Q.
Proof. intro H. unfold Qlt. simpl. lia. Qed.

Lemma bin_speed_increasing (p : params) (i j : Z) :
  (1 <= windowsize_of p)%Z -> (0 < Fs p)%Q -> (i < j)%Z ->
  (bin_speed p i < bin_speed p j)%Q.
Proof.
  intros W F L. rewrite !(bin_speed_formula p _ W). unfold Qdiv.
  repeat apply Qmult_lt_compat_r; try reflexivity.
  - apply Qinv_lt_0_compat. unfold Qlt. simpl. lia.
  - exact F.
  - now apply inject_Z_lt.
Qed.

Lemma bin_speed_zero (p : params) : (bin_speed p 0 == 0)%Q.
Proof. unfold bin_speed, Qdiv. now rewrite !Qmult_0_l. Qed.

(** X12.  For a positive sampling rate the speeds of the uncropped axis
    increase strictly with the bin, so the crop keeps a leading run of
    bins: the kept axis is the first [K] entries of the uncropped one, and
    bin [j] of a row, which line 98 slices as [[0:K]], is the bin whose
    speed is entry [j] of the kept axis. *)
Theorem X12_axis_is_prefix (p : params) (s0 : locals) :
  setup p = Ok s0 ->
  (0 < Fs p)%Q ->
  exists axis : list Q,
    speedaxis_uncropped p = Ok axis /\
    speedaxis s0 = firstn (length (speedaxis s0)) axis /\
    (forall (i j : nat) (vi vj : Q),
       (i < j)%nat -> nth_error axis i = Some vi ->
       nth_error axis j = Some vj -> (vi < vj)%Q) /\
    (forall j : nat, (j < length (speedaxis s0))%nat ->
       nth_error (speedaxis s0) j = nth_error axis j).
Proof.
  intros E F. destruct (setup_Ok_inv p s0 E) as [W1 D0].
  pose proof E as E'. rewrite (setup_Ok p W1 D0) in E'. injection E' as <-.
  cbn [speedaxis].
  set (f := fun k : nat => bin_speed p (Z.of_nat k)).
  set (n := Z.to_nat (half (windowsize_of p))).
  set (q := fun v : Q => Qle_bool v (maxspeed p)).
  exists (map f (seq 0 n)).
  split; [apply (speedaxis_uncropped_Ok p W1)|].
  assert (P : filter q (map f (seq 0 n)) =
              firstn (length (filter q (map f (seq 0 n)))) (map f (seq 0 n))).
  { rewrite filter_map_comp, length_map, firstn_map, firstn_seq_min.
    rewrite (filter_seq_prefix (fun x => q (f x)) n) at 1.
    - f_equal. f_equal. symmetry. apply Nat.min_l.
      etransitivity; [apply filter_length_le|]. now rewrite length_seq.
    - intros i j Hij Hj. unfold q, f in *. apply Qle_bool_iff.
      apply Qle_bool_iff in Hj.
      destruct (Nat.eq_dec i j) as [->|Ne]; [exact Hj|].
      apply Qlt_le_weak. eapply Qlt_le_trans; [|exact Hj].
      apply bin_speed_increasing; try assumption. lia. }
  split; [exact P|]. split.
  - intros i j vi vj Hij Hi Hj.
    rewrite nth_error_map in Hi, Hj.
    destruct (nth_error (seq 0 n) i) as [i'|] eqn:Ei; [|discriminate Hi].
    destruct (nth_error (seq 0 n) j) as [j'|] eqn:Ej; [|discriminate Hj].
    assert (Li : (i < n)%nat).
    { assert (Hs : nth_error (seq 0 n) i <> None) by congruence.
      apply nth_error_Some in Hs. now rewrite length_seq in Hs. }
    assert (Lj : (j < n)%nat).
    { assert (Hs : nth_error (seq 0 n) j <> None) by congruence.
      apply nth_error_Some in Hs. now rewrite length_seq in Hs. }
    rewrite nth_error_nth' with (d := 0%nat) in Ei, Ej
      by (rewrite length_seq; assumption).
    rewrite seq_nth in Ei, Ej by assumption.
    cbn [option_map] in Hi, Hj. cbn [Nat.add] in Ei, Ej.
    assert (vi = f i) by congruence. assert (vj = f j) by congruence.
    subst vi vj. unfold f. apply bin_speed_increasing; try assumption. lia.
  - intros j Hj. rewrite P at 1. rewrite nth_error_firstn.
    destruct (Nat.ltb_spec j (length (filter q (map f (seq 0 n)))));
      [reflexivity | lia].
Qed.

Lemma X12_axis_is_prefix_witness :
  exists (s0 : locals) (axis : list Q),
    setup default_params = Ok s0 /\
    speedaxis_uncropped default_params = Ok axis /\
    speedaxis s0 = firstn (length (speedaxis s0)) axis.
Proof.
  assert (W1 : (1 <= windowsize_of default_params)%Z) by (vm_compute; discriminate).
  assert (D0 : (0 <= depth_of default_params)%Z) by (vm_compute; discriminate).
  pose proof (setup_Ok default_params W1 D0) as E. cbv zeta in E.
  match type of E with _ = Ok ?s => set (s0 := s) in E end.
  assert (F : (0 < Fs default_params)%Q) by reflexivity.
  destruct (X12_axis_is_prefix default_params s0 E F) as (axis & H1 & H2 & _).
  exists s0, axis. exact (conj E (conj H1 H2)).
Defined.

Lemma Some_inj {A : Type} (a b : A) : Some a = Some b -> a = b.
Proof. intro H. now injection H. Qed.

(** X13.  With a positive sampling rate and at least one one-sided bin,
    the kept axis is empty, and with it every row of the waterfall,
    exactly when [maxspeed] is negative: bin 0 has speed 0. *)
Theorem X13_negative_maxspeed (p : params) (s0 : locals) :
  setup p = Ok s0 ->
  (0 < Fs p)%Q ->
  (2 <= windowsize s0)%Z ->
  (speedaxis s0 = [] <-> (maxspeed p < 0)%Q) /\
  (speedaxis s0 = [] -> Forall (fun r => r = []) (doppler s0)).
Proof.
  intros E F W2. destruct (setup_Ok_inv p s0 E) as [W1 D0].
  pose proof (setup_doppler p s0 E) as ED.
  pose proof E as E'. rewrite (setup_Ok p W1 D0) in E'.
  assert (EW : windowsize s0 = windowsize_of p) by (injection E' as <-; reflexivity).
  assert (EA : speedaxis s0 =
               filter (fun v => Qle_bool v (maxspeed p))
                 (map (fun k => bin_speed p (Z.of_nat k))
                    (seq 0 (Z.to_nat (half (windowsize_of p))))))
    by (injection E' as <-; reflexivity).
  clear E'. rewrite EW in W2.
  assert (Hn : exists m, Z.to_nat (half (windowsize_of p)) = S m).
  { rewrite half_div2 by lia.
    assert (1 <= windowsize_of p / 2)%Z by (apply Z.div_le_lower_bound; lia).
    exists (Z.to_nat (windowsize_of p / 2) - 1)%nat. lia. }
  destruct Hn as [m Hm]. pose proof EA as EA0.
  rewrite Hm in EA. cbn [seq map filter] in EA.
  split.
  - split.
    + intro Z0. rewrite Z0 in EA.
      destruct (Qle_bool (bin_speed p (Z.of_nat 0)) (maxspeed p)) eqn:Q0;
        [discriminate EA|].
      apply Qnot_le_lt. intro Hle. 
      assert (T : Qle_bool (bin_speed p (Z.of_nat 0)) (maxspeed p) = true).
      { apply Qle_bool_iff. change (Z.of_nat 0) with 0%Z.
        now rewrite bin_speed_zero. }
      congruence.
    + intro Hneg. apply Qlt_not_le in Hneg.
      destruct (X12_axis_is_prefix p s0 E F) as (axis & Ea & _ & Hinc & Hnth).
      rewrite (speedaxis_uncropped_Ok p W1) in Ea. apply Ok_inj in Ea.
      destruct (speedaxis s0) as [|v vs] eqn:Es; [reflexivity|].
      exfalso. apply Hneg.
      assert (Hin : In v (v :: vs)) by now left.
      specialize (Hnth 0%nat (Nat.lt_0_succ _)). rewrite <- Ea, Hm in Hnth.
      cbn [nth_error seq map] in Hnth. apply Some_inj in Hnth.
      rewrite EA0 in Hin. apply filter_In in Hin. destruct Hin as [_ Hq].
      apply Qle_bool_iff in Hq. rewrite Hnth in Hq.
      change (Z.of_nat 0) with 0%Z in Hq. now rewrite bin_speed_zero in Hq.
  - intro Z0. rewrite ED, Z0. apply Forall_forall. intros r Hr.
    now apply repeat_spec in Hr.
Qed.

Lemma X13_negative_maxspeed_witness :
  exists s0 : locals,
    setup default_params = Ok s0 /\
    (speedaxis s0 = [] <-> (maxspeed default_params < 0)%Q).
Proof.
  assert (W1 : (1 <= windowsize_of default_params)%Z) by (vm_compute; discriminate).
  assert (D0 : (0 <= depth_of default_params)%Z) by (vm_compute; discriminate).
  pose proof (setup_Ok default_params W1 D0) as E. cbv zeta in E.
  match type of E with _ = Ok ?s => set (s0 := s) in E end.
  assert (F : (0 < Fs default_params)%Q) by reflexivity.
  assert (W2 : (2 <= windowsize s0)%Z).
  { unfold s0. cbn [windowsize]. vm_compute. discriminate. }
  destruct (X13_negative_maxspeed default_params s0 E F W2) as [H _].
  exists s0. exact (conj E H).
Defined.

(** ** Gain *)

Lemma windowed_scale (a : R) (h d : list R) :
  windowed h (map (Rmult a) d) = map (Rmult a) (windowed h d).
Proof.
  unfold windowed. revert d. induction h as [|x h IH]; intro d; [reflexivity|].
  destruct d as [|y d]; [reflexivity|]. cbn [map combine fst snd].
  rewrite IH. f_equal. lra.
Qed.

Lemma Rsum_scale (a : R) (f : nat * R -> R) (l : list nat) (x : list R) :
  (forall i v, f (i, (a * v)%R) = (a * f (i, v))%R) ->
  Rsum (map f (combine l (map (Rmult a) x))) =
  (a * Rsum (map f (combine l x)))%R.
Proof.
  intro H. revert x. induction l as [|i l IH]; intro x.
  - cbn. lra.
  - destruct x as [|v x]; [cbn; lra|]. cbn [map combine Rsum fold_right].
    fold (Rsum (map f (combine l (map (Rmult a) x)))).
    fold (Rsum (map f (combine l x))). rewrite IH, H. lra.
Qed.

Lemma dft_bin_scale (a : R) (x : list R) (k : nat) :
  dft_bin (map (Rmult a) x) k =
  ((a * fst (dft_bin x k))%R, (a * snd (dft_bin x k))%R).
Proof.
  unfold dft_bin. rewrite length_map. cbn [fst snd].
  f_equal; apply Rsum_scale; intros i v; cbn [fst snd]; lra.
Qed.

Lemma np_abs_scale (a : R) (z : complex) :
  (0 <= a)%R ->
  np_abs ((a * fst z)%R, (a * snd z)%R) = (a * np_abs z)%R.
Proof.
  intro Ha. unfold np_abs. cbn [fst snd].
  replace (a * fst z * (a * fst z) + a * snd z * (a * snd z))%R
    with ((a * a) * (fst z * fst z + snd z * snd z))%R by lra.
  rewrite sqrt_mult; [| nra | nra]. now rewrite sqrt_square.
Qed.

Lemma ln_10_pos : (0 < ln 10)%R.
Proof. rewrite <- ln_1. apply ln_increasing; lra. Qed.

Lemma log10_scale (a m : R) :
  (0 < a)%R -> (0 <= m)%R ->
  times20 (np_log10 (a * m)) =
  shift_db (20 * (ln a / ln 10)) (times20 (np_log10 m)).
Proof.
  intros Ha Hm. unfold np_log10.
  destruct (Req_dec_T m 0) as [Z0|NZ].
  - subst m. destruct (Req_dec_T (a * 0) 0) as [_|N]; [reflexivity|].
    exfalso. apply N. lra.
  - assert (Pm : (0 < m)%R) by lra.
    assert (Pam : (0 < a * m)%R) by nra.
    destruct (Req_dec_T (a * m) 0) as [Z0|_]; [lra|].
    destruct (Rlt_dec (a * m) 0) as [L|_]; [lra|].
    destruct (Rlt_dec m 0) as [L|_]; [lra|].
    cbn [times20 shift_db]. f_equal. rewrite ln_mult by assumption.
    pose proof ln_10_pos. field. lra.
Qed.

(** X14.  Gain moves the waterfall by a constant.  Multiplying every
    sample of a window by [a > 0] adds [20*log10(a)] decibels to every
    finite bin of its row and leaves the bins that are [-inf] as they
    are. *)
Theorem X14_gain_shifts_row (h d : list R) (a : R) (K : nat)
    (row : list xreal) :
  length h = length d ->
  (0 < a)%R ->
  spectrum_row h d K = Ok row ->
  spectrum_row h (map (Rmult a) d) K =
  Ok (map (shift_db (20 * (ln a / ln 10))) row).
Proof.
  intros L Ha E.
  assert (N : d <> []).
  { intro Z0. subst d. destruct h; [|discriminate L]. discriminate E. }
  rewrite spectrum_row_Ok in E by assumption. apply Ok_inj in E. subst row.
  rewrite spectrum_row_Ok.
  - rewrite length_map, map_map. f_equal. apply map_ext. intro k.
    rewrite windowed_scale, dft_bin_scale, np_abs_scale by lra.
    apply log10_scale; [exact Ha | apply np_abs_nonneg].
  - now rewrite length_map.
  - intro Z0. apply N. destruct d; [reflexivity | discriminate Z0].
Qed.

Lemma X14_gain_shifts_row_witness :
  exists row : list xreal,
    spectrum_row (np_hanning 4) [1; 0; -1; 0]%R 2 = Ok row /\
    spectrum_row (np_hanning 4) (map (Rmult 2) [1; 0; -1; 0]%R) 2 =
    Ok (map (shift_db (20 * (ln 2 / ln 10))) row).
Proof.
  eexists. split.
  - apply spectrum_row_Ok; [reflexivity | discriminate].
  - apply (X14_gain_shifts_row (np_hanning 4) [1; 0; -1; 0]%R 2 2).
    + reflexivity.
    + lra.
    + apply spectrum_row_Ok; [reflexivity | discriminate].
Defined.

(** ** The loop as a function of the bytes read *)

(** X9.  The waterfall is the recent history.  Split the bytes that the
    reads deliver, in order, into whole blocks of [2*windowsize] bytes and
    a shorter rest.  Then, however the bytes were interleaved with reads
    that returned nothing, the passes over those reads leave the rest in
    the accumulator and, in the buffer, the decibel rows of the most
    recent blocks, newest first, above as many zero rows as still fit;
    interrupted there, [livedoppler] returns exactly that buffer. *)
Theorem X9_recent_history (p : params) (s0 : locals)
    (inputs : list (option byte)) (frames : list (list byte))
    (rest : list byte) :
  setup p = Ok s0 ->
  (1 <= length (doppler s0))%nat ->
  bytes_of inputs = concat frames ++ rest ->
  Forall (fun f => Z.of_nat (length f) = (2 * windowsize s0)%Z) frames ->
  (Z.of_nat (length rest) < 2 * windowsize s0)%Z ->
  exists (s' : locals) (rows : list (list xreal)) (n : nat),
    iterations inputs s0 = Ok s' /\
    Forall2 (fun f r => row_of_frame s0 f = Ok r) frames rows /\
    doppler s' = firstn (length (doppler s0)) (rev rows ++ doppler s0) /\
    rawbin s' = rest /\
    livedoppler p inputs n = Ok (doppler s').
Proof.
  intros E D1 Hb FF Hr.
  pose proof (setup_well_formed p s0 E) as WF.
  pose proof (setup_invariant p s0 E) as I0.
  pose proof WF as (_ & _ & _ & HR & _).
  destruct (iterations_total s0 inputs WF D1 s0 I0) as [s1 E1].
  pose proof (iterations_bytes_of s0 inputs WF s0 I0) as H.
  rewrite E1, Hb, map_app, iterations_app in H. cbn [bind] in H.
  destruct (iterations_frames s0 frames WF D1 FF s0 I0 HR)
    as (s2 & rows & Ei & F2 & Eu & I2 & R2).
  rewrite Ei in H. cbn [bind] in H.
  destruct I2 as ((EW2 & _) & _).
  rewrite iterations_fill in H
    by (rewrite R2, EW2; cbn [length Nat.add]; exact Hr).
  cbn [bind] in H. apply Ok_inj in H.
  destruct (feed_fields rest s2) as (Rf & _ & _ & _ & Df).
  assert (Ed : doppler s1 = doppler s2).
  { change (doppler (forget_cbyte s1) = doppler s2). now rewrite H. }
  assert (Er : rawbin s1 = rest).
  { change (rawbin (forget_cbyte s1) = rest). rewrite H.
    change (rawbin (feed rest s2) = rest). now rewrite Rf, R2. }
  destruct I0 as (_ & [_ SHF] & _).
  rewrite (X2_updates_recent (length (speedaxis s0)) rows (doppler s0)) in Eu;
    [| exact D1 | exact SHF
     | exact (Forall2_row_width s0 frames rows WF FF F2)].
  apply Ok_inj in Eu.
  destruct (iterations_run inputs s0) as [n Hn].
  exists s1, rows, n. split; [exact E1|]. split; [exact F2|].
  split; [congruence|]. split; [exact Er|].
  unfold livedoppler. rewrite E. cbn [bind].
  specialize (Hn []). rewrite app_nil_r in Hn. rewrite Hn, E1. reflexivity.
Qed.

Lemma X9_recent_history_witness :
  exists (s' : locals) (rows : list (list xreal)) (n : nat),
    iterations
      (None :: map Some (midscale_frame 2) ++ None ::
       map Some (midscale_frame 2) ++ map Some (midscale_frame 2) ++
       [Some x0f; None])
      small_start = Ok s' /\
    Forall2 (fun f r => row_of_frame small_start f = Ok r)
      [midscale_frame 2; midscale_frame 2; midscale_frame 2] rows /\
    doppler s' = firstn 2 (rev rows ++ doppler small_start) /\
    rawbin s' = [x0f] /\
    livedoppler small_params
      (None :: map Some (midscale_frame 2) ++ None ::
       map Some (midscale_frame 2) ++ map Some (midscale_frame 2) ++
       [Some x0f; None])
      n = Ok (doppler s').
Proof.
  apply (X9_recent_history small_params small_start _
           [midscale_frame 2; midscale_frame 2; midscale_frame 2] [x0f]).
  - exact small_setup.
  - exact small_depth.
  - reflexivity.
  - repeat constructor.
  - cbn. lia.
Defined.
